(** * wii-usb: a Wii extension controller as a USB gamepad

    A shallow embedding of [wii-usb.ino] and the properties of its
    controller protocol decoder.

    The sketch runs on an AVR board: [byte] is 8 bits wide, [int] and
    [int16_t] are 16 bits wide, [unsigned long] is 32 bits wide.  Integers
    are modelled as [Z] with the wrap-around of every conversion written
    out.  The I2C bus ([Wire]), the clock and the USB gamepad ([Gamepad],
    from the HID-Project library) form the state threaded through the
    program. *)

From stdpp Require Import base numbers list.
From Stdlib Require Import ZArith Lia.

Local Open Scope Z_scope.

(** ** Machine integers *)

Module CInt.

(** Conversion to [byte] / [uint8_t]. *)
Definition to_byte (x : Z) : Z := x mod 256.

(** Conversion to [int8_t]. *)
Definition to_int8 (x : Z) : Z := (x + 128) mod 256 - 128.

(** Conversion to [int16_t], which is also [int] on this target. *)
Definition to_int16 (x : Z) : Z := (x + 32768) mod 65536 - 32768.

(** Conversion to [unsigned long]. *)
Definition to_ulong (x : Z) : Z := x mod 4294967296.

(** Arithmetic carried out in [int] after the usual promotions. *)
Definition int_sub (a b : Z) : Z := to_int16 (a - b).
Definition int_shl (a n : Z) : Z := to_int16 (Z.shiftl a n).
Definition int_or (a b : Z) : Z := to_int16 (Z.lor a b).

(** The value of a comparison used as an integer. *)
Definition of_bool (b : bool) : Z := if b then 1 else 0.

(** A bit-field of [width] bits starting at bit [pos] of a byte. *)
Definition bitfield (b pos width : Z) : Z :=
  Z.land (Z.shiftr b pos) (Z.ones width).

End CInt.
Import CInt.

(** ** Constants of the sketch *)

Definition POLL_INTERVAL_MS : Z := 16.
Definition I2C_CLOCK_SPEED : Z := 400000.
Definition I2C_ADDRESS : Z := 0x52.

Definition INIT_DATA_1 : list Z := [0xf0; 0x55].
Definition INIT_DATA_2 : list Z := [0xfb; 0x00].

Definition ID_ADDRESS : Z := 0xfa.
Definition ID_LEN : Z := 6.

Definition DATA_ADDRESS : Z := 0x00.
Definition DATA_LEN : Z := 6.

Definition VALID_ID_1 : list Z := [0x00; 0x00; 0xA4; 0x20; 0x01; 0x01].
Definition VALID_ID_2 : list Z := [0x01; 0x00; 0xA4; 0x20; 0x01; 0x01].

(** Modelled from the spec: the nine directional values of the Gamepad
    API (eight compass directions and centered).  The sketch takes them
    from the HID-Project header, which numbers them clockwise from up. *)
Definition GAMEPAD_DPAD_CENTERED : Z := 0.
Definition GAMEPAD_DPAD_UP : Z := 1.
Definition GAMEPAD_DPAD_UP_RIGHT : Z := 2.
Definition GAMEPAD_DPAD_RIGHT : Z := 3.
Definition GAMEPAD_DPAD_DOWN_RIGHT : Z := 4.
Definition GAMEPAD_DPAD_DOWN : Z := 5.
Definition GAMEPAD_DPAD_DOWN_LEFT : Z := 6.
Definition GAMEPAD_DPAD_LEFT : Z := 7.
Definition GAMEPAD_DPAD_UP_LEFT : Z := 8.

Definition dpad_values : list Z :=
  [ GAMEPAD_DPAD_CENTERED; GAMEPAD_DPAD_UP; GAMEPAD_DPAD_UP_RIGHT;
    GAMEPAD_DPAD_RIGHT; GAMEPAD_DPAD_DOWN_RIGHT; GAMEPAD_DPAD_DOWN;
    GAMEPAD_DPAD_DOWN_LEFT; GAMEPAD_DPAD_LEFT; GAMEPAD_DPAD_UP_LEFT ].

(** Map from the bitset of dpad buttons to the Gamepad API dpad value;
    the bits are, from the lowest, down, right, up, left. *)
Definition DPAD_MAPPINGS : list Z :=
  [ GAMEPAD_DPAD_CENTERED;   (* 0000 = none *)
    GAMEPAD_DPAD_DOWN;       (* 0001 = down *)
    GAMEPAD_DPAD_RIGHT;      (* 0010 = right *)
    GAMEPAD_DPAD_DOWN_RIGHT; (* 0011 = down+right *)
    GAMEPAD_DPAD_UP;         (* 0100 = up *)
    GAMEPAD_DPAD_DOWN;       (* 0101 = down+up *)
    GAMEPAD_DPAD_UP_RIGHT;   (* 0110 = right+up *)
    GAMEPAD_DPAD_RIGHT;      (* 0111 = right+up+down *)
    GAMEPAD_DPAD_LEFT;       (* 1000 = left *)
    GAMEPAD_DPAD_DOWN_LEFT;  (* 1001 = down+left *)
    GAMEPAD_DPAD_RIGHT;      (* 1010 = right+left *)
    GAMEPAD_DPAD_DOWN;       (* 1011 = right+left+down *)
    GAMEPAD_DPAD_UP_LEFT;    (* 1100 = up+left *)
    GAMEPAD_DPAD_LEFT;       (* 1101 = down+up+left *)
    GAMEPAD_DPAD_UP;         (* 1110 = right+up+left *)
    GAMEPAD_DPAD_CENTERED    (* 1111 = all buttons *)
  ].

(** Map from Wii controller buttons to Gamepad API button numbers. *)
Inductive ButtonMappings : Set :=
| BUTTON_A
| BUTTON_B
| BUTTON_X
| BUTTON_Y
| BUTTON_PLUS
| BUTTON_HOME
| BUTTON_MINUS
| BUTTON_LEFT_TRIGGER
| BUTTON_RIGHT_TRIGGER
| BUTTON_ZL
| BUTTON_ZR.

Definition button_number (b : ButtonMappings) : Z :=
  match b with
  | BUTTON_A => 1
  | BUTTON_B => 2
  | BUTTON_X => 3
  | BUTTON_Y => 4
  | BUTTON_PLUS => 5
  | BUTTON_HOME => 6
  | BUTTON_MINUS => 7
  | BUTTON_LEFT_TRIGGER => 8
  | BUTTON_RIGHT_TRIGGER => 9
  | BUTTON_ZL => 10
  | BUTTON_ZR => 11
  end.

Definition all_buttons : list ButtonMappings :=
  [ BUTTON_A; BUTTON_B; BUTTON_X; BUTTON_Y; BUTTON_PLUS; BUTTON_HOME;
    BUTTON_MINUS; BUTTON_LEFT_TRIGGER; BUTTON_RIGHT_TRIGGER; BUTTON_ZL;
    BUTTON_ZR ].

(** ** Controller data *)

(** The report of a Classic Controller, one record field per bit-field
    of [struct ControllerData]. *)
Record ControllerData : Set := {
  left_stick_x : Z;          (* : 6 *)
  right_stick_x1 : Z;        (* : 2 *)

  left_stick_y : Z;          (* : 6 *)
  right_stick_x2 : Z;        (* : 2 *)

  right_stick_y : Z;         (* : 5 *)
  left_trigger1 : Z;         (* : 2 *)
  right_stick_x3 : Z;        (* : 1 *)

  right_trigger : Z;         (* : 5 *)
  left_trigger2 : Z;         (* : 3 *)

  dummy : Z;                 (* : 1 *)
  button_right_trigger : Z;  (* : 1 *)
  button_plus : Z;           (* : 1 *)
  button_home : Z;           (* : 1 *)
  button_minus : Z;          (* : 1 *)
  button_left_trigger : Z;   (* : 1 *)
  button_down : Z;           (* : 1 *)
  button_right : Z;          (* : 1 *)

  button_up : Z;             (* : 1 *)
  button_left : Z;           (* : 1 *)
  button_zr : Z;             (* : 1 *)
  button_x : Z;              (* : 1 *)
  button_a : Z;              (* : 1 *)
  button_y : Z;              (* : 1 *)
  button_b : Z;              (* : 1 *)
  button_zl : Z              (* : 1 *)
}.

(** A field of [width] bits holds the values below [2 ^ width]. *)
Definition fits (width v : Z) : Prop := 0 <= v < 2 ^ width.

(** Every field lies within its declared width. *)
Record well_formed (d : ControllerData) : Prop := {
  wf_left_stick_x : fits 6 (left_stick_x d);
  wf_right_stick_x1 : fits 2 (right_stick_x1 d);
  wf_left_stick_y : fits 6 (left_stick_y d);
  wf_right_stick_x2 : fits 2 (right_stick_x2 d);
  wf_right_stick_y : fits 5 (right_stick_y d);
  wf_left_trigger1 : fits 2 (left_trigger1 d);
  wf_right_stick_x3 : fits 1 (right_stick_x3 d);
  wf_right_trigger : fits 5 (right_trigger d);
  wf_left_trigger2 : fits 3 (left_trigger2 d);
  wf_dummy : fits 1 (dummy d);
  wf_button_right_trigger : fits 1 (button_right_trigger d);
  wf_button_plus : fits 1 (button_plus d);
  wf_button_home : fits 1 (button_home d);
  wf_button_minus : fits 1 (button_minus d);
  wf_button_left_trigger : fits 1 (button_left_trigger d);
  wf_button_down : fits 1 (button_down d);
  wf_button_right : fits 1 (button_right d);
  wf_button_up : fits 1 (button_up d);
  wf_button_left : fits 1 (button_left d);
  wf_button_zr : fits 1 (button_zr d);
  wf_button_x : fits 1 (button_x d);
  wf_button_a : fits 1 (button_a d);
  wf_button_y : fits 1 (button_y d);
  wf_button_b : fits 1 (button_b d);
  wf_button_zl : fits 1 (button_zl d)
}.

(** The six bytes read from the controller, seen as a [ControllerData]
    (the cast [(byte* ) &data] read backwards).  The compiler allocates the
    bit-fields of each byte from the least significant bit upwards, in
    declaration order. *)
Definition unpack (raw : list Z) : ControllerData :=
  let b0 := nth 0 raw 0 in
  let b1 := nth 1 raw 0 in
  let b2 := nth 2 raw 0 in
  let b3 := nth 3 raw 0 in
  let b4 := nth 4 raw 0 in
  let b5 := nth 5 raw 0 in
  {| left_stick_x := bitfield b0 0 6;
     right_stick_x1 := bitfield b0 6 2;
     left_stick_y := bitfield b1 0 6;
     right_stick_x2 := bitfield b1 6 2;
     right_stick_y := bitfield b2 0 5;
     left_trigger1 := bitfield b2 5 2;
     right_stick_x3 := bitfield b2 7 1;
     right_trigger := bitfield b3 0 5;
     left_trigger2 := bitfield b3 5 3;
     dummy := bitfield b4 0 1;
     button_right_trigger := bitfield b4 1 1;
     button_plus := bitfield b4 2 1;
     button_home := bitfield b4 3 1;
     button_minus := bitfield b4 4 1;
     button_left_trigger := bitfield b4 5 1;
     button_down := bitfield b4 6 1;
     button_right := bitfield b4 7 1;
     button_up := bitfield b5 0 1;
     button_left := bitfield b5 1 1;
     button_zr := bitfield b5 2 1;
     button_x := bitfield b5 3 1;
     button_a := bitfield b5 4 1;
     button_y := bitfield b5 5 1;
     button_b := bitfield b5 6 1;
     button_zl := bitfield b5 7 1 |}.

(** The right stick x axis is stored in non-contiguous bits. *)
Definition getRightStickX (d : ControllerData) : Z :=
  to_byte (int_or (int_or (int_shl (right_stick_x1 d) 3)
                          (int_shl (right_stick_x2 d) 1))
                  (right_stick_x3 d)).

(** The left trigger axis is stored in non-contiguous bits. *)
Definition getLeftTrigger (d : ControllerData) : Z :=
  to_byte (int_or (int_shl (left_trigger1 d) 3) (left_trigger2 d)).

(** The index into [DPAD_MAPPINGS] computed by [getDpadValue]. *)
Definition dpad_index (d : ControllerData) : Z :=
  let down_bit := to_byte (of_bool (button_down d =? 0)) in
  let right_bit := to_byte (int_shl (of_bool (button_right d =? 0)) 1) in
  let up_bit := to_byte (int_shl (of_bool (button_up d =? 0)) 2) in
  let left_bit := to_byte (int_shl (of_bool (button_left d =? 0)) 3) in
  to_byte (int_or (int_or (int_or down_bit right_bit) up_bit) left_bit).

(** The Dpad value for the Gamepad API; [None] stands for a read outside
    the array. *)
Definition getDpadValue (d : ControllerData) : option Z :=
  if dpad_index d <? 0 then None
  else DPAD_MAPPINGS !! Z.to_nat (dpad_index d).

(** ** The USB gamepad *)

(** Modelled from the spec: the report kept by the Gamepad API of the
    HID-Project library: 32 buttons as a bit mask, four 16-bit axes, two
    8-bit axes and two 4-bit directional pads. *)
Record GamepadReport : Set := {
  report_buttons : Z;   (* uint32_t *)
  report_xAxis : Z;     (* int16_t *)
  report_yAxis : Z;     (* int16_t *)
  report_rxAxis : Z;    (* int16_t *)
  report_ryAxis : Z;    (* int16_t *)
  report_zAxis : Z;     (* int8_t *)
  report_rzAxis : Z;    (* int8_t *)
  report_dPad1 : Z;     (* : 4 *)
  report_dPad2 : Z      (* : 4 *)
}.

Definition zero_report : GamepadReport :=
  {| report_buttons := 0; report_xAxis := 0; report_yAxis := 0;
     report_rxAxis := 0; report_ryAxis := 0; report_zAxis := 0;
     report_rzAxis := 0; report_dPad1 := 0; report_dPad2 := 0 |}.

(** Whether button [b] is down in a report. *)
Definition pressed (b : ButtonMappings) (r : GamepadReport) : bool :=
  Z.testbit (report_buttons r) (button_number b - 1).

(** The buttons that are down in a report. *)
Definition pressed_buttons (r : GamepadReport) : list ButtonMappings :=
  filter (fun b => pressed b r = true) all_buttons.

(** ** The board and its surroundings *)

Inductive Pin : Set := DEVICE_DETECT_PIN | LED_BUILTIN.
Inductive PinDirection : Set := INPUT | OUTPUT.

(** What the program does to the outside, in the order it happens. *)
Inductive Event : Set :=
| PinMode (pin : Pin) (dir : PinDirection)
| WireSetClock (hz : Z)
| WireBegin
| Transmission (data : list Z) (status : Z)
| RequestFrom (quantity : Z)
| ReadBytes (count : Z)
| Delay (ms : Z)
| UsbReport (r : GamepadReport)
| DigitalWrite (pin : Pin) (high : bool).

(** How the peripheral answers one transmission: the status returned by
    [Wire.endTransmission], and the bytes it would send back when asked,
    as the chunks in which they arrive (the first at the request, each
    later one a millisecond after the one before). *)
Record Exchange : Set := {
  ack : Z;
  reply : list (list Z)
}.

(** Once the script is used up the peripheral no longer acknowledges its
    address. *)
Definition absent : Exchange := {| ack := 2; reply := [] |}.

Record World : Set := {
  script : list Exchange;    (* answers to the transmissions to come *)
  armed : list (list Z);     (* answer to the next request *)
  rx : list Z;               (* receive buffer of [Wire] *)
  pending : list (list Z);   (* chunks of the current answer still due *)
  now : Z;                   (* [millis()] *)
  gamepad : GamepadReport;   (* the report held by [Gamepad] *)
  trace : list Event
}.

Definition boot (s : list Exchange) : World :=
  {| script := s; armed := []; rx := []; pending := []; now := 0;
     gamepad := zero_report; trace := [] |}.

Definition with_gamepad (g : GamepadReport) (w : World) : World :=
  {| script := script w; armed := armed w; rx := rx w;
     pending := pending w; now := now w; gamepad := g; trace := trace w |}.

Definition log (e : Event) (w : World) : World :=
  {| script := script w; armed := armed w; rx := rx w;
     pending := pending w; now := now w; gamepad := gamepad w;
     trace := trace w ++ [e] |}.

(** ** Computations *)

(** Why a run does not come back. *)
Inductive Fault : Set :=
| Blocked       (* waits for bytes that never arrive *)
| OutOfBounds.  (* reads outside an array *)

(** A computation ends with a value or a fault, and leaves a world
    either way. *)
Definition M (A : Type) : Type := World -> (Fault + A) * World.

Definition ret {A} (a : A) : M A := fun w => (inr a, w).

Definition bind {A B} (m : M A) (k : A -> M B) : M B :=
  fun w => match m w with
           | (inl f, w') => (inl f, w')
           | (inr a, w') => k a w'
           end.

Definition fail {A} (f : Fault) : M A := fun w => (inl f, w).

Declare Scope prog_scope.
Delimit Scope prog_scope with prog.
Notation "x <- m ;; k" := (bind m (fun x => k))
  (at level 20, m at level 99, k at level 200) : prog_scope.
Notation "m ;; k" := (bind m (fun _ => k))
  (at level 100, k at level 200, right associativity) : prog_scope.
Local Open Scope prog_scope.

Definition emit (e : Event) : M unit := fun w => (inr tt, log e w).

Definition when (c : bool) (m : M unit) : M unit := if c then m else ret tt.

(** *** Time *)

Definition millis : M Z := fun w => (inr (now w), w).

(** One millisecond passes: the clock moves on and the next chunk of the
    current answer reaches the receive buffer. *)
Definition tick (w : World) : World :=
  {| script := script w; armed := armed w;
     rx := rx w ++ hd [] (pending w);
     pending := tl (pending w);
     now := to_ulong (now w + 1);
     gamepad := gamepad w; trace := trace w |}.

Definition delay (ms : Z) : M unit := fun w =>
  emit (Delay ms) (Nat.iter (Z.to_nat ms) tick w).

Definition pinMode (p : Pin) (d : PinDirection) : M unit := emit (PinMode p d).
Definition digitalWrite (p : Pin) (high : bool) : M unit :=
  emit (DigitalWrite p high).

(** *** The [Wire] library *)

(** Modelled from the spec: the bus transport, which the sketch takes from
    the Arduino Wire library.  A transmission to the fixed peripheral
    address returns a status, 0 for success; a request makes the bytes of
    the answer available to be read. *)
Module Wire.

Definition setClock (hz : Z) : M unit := emit (WireSetClock hz).
Definition begin : M unit := emit WireBegin.

(** [beginTransmission], [write] and [endTransmission] together: the
    bytes go out and the peripheral's next answer decides the status. *)
Definition transmit (data : list Z) : M Z := fun w =>
  let x := hd absent (script w) in
  (inr (ack x),
   {| script := tl (script w); armed := reply x; rx := rx w;
      pending := pending w; now := now w; gamepad := gamepad w;
      trace := trace w ++ [Transmission data (ack x)] |}).

(** The receive buffer starts afresh with what arrives at once. *)
Definition requestFrom (quantity : Z) : M unit := fun w =>
  (inr tt,
   {| script := script w; armed := [];
      rx := hd [] (armed w); pending := tl (armed w);
      now := now w; gamepad := gamepad w;
      trace := trace w ++ [RequestFrom quantity] |}).

Definition available : M Z := fun w => (inr (Z.of_nat (length (rx w))), w).

(** Takes [len] bytes out of the receive buffer, or all of it when it
    holds fewer. *)
Definition readBytes (len : Z) : M (list Z) := fun w =>
  let got := take (Z.to_nat len) (rx w) in
  (inr got,
   {| script := script w; armed := armed w;
      rx := drop (Z.to_nat len) (rx w); pending := pending w;
      now := now w; gamepad := gamepad w;
      trace := trace w ++ [ReadBytes (Z.of_nat (length got))] |}).

End Wire.

(** *** The [Gamepad] object *)

(** Modelled from the spec: the USB report writer, which the sketch takes
    from the HID-Project library.  The object remembers the report;
    buttons are pressed one by one, [releaseAll] empties the whole report
    and [write] sends it. *)
Module Gamepad.

Definition update (f : GamepadReport -> GamepadReport) : M unit :=
  fun w => (inr tt, with_gamepad (f (gamepad w)) w).

Definition write : M unit := fun w => emit (UsbReport (gamepad w)) w.

Definition releaseAll : M unit := update (fun _ => zero_report).

(** [begin] releases everything and sends the empty report. *)
Definition begin : M unit := releaseAll ;; write.

Definition press_report (b : ButtonMappings) (g : GamepadReport) :=
  {| report_buttons :=
       to_ulong (Z.lor (report_buttons g) (Z.shiftl 1 (button_number b - 1)));
     report_xAxis := report_xAxis g; report_yAxis := report_yAxis g;
     report_rxAxis := report_rxAxis g; report_ryAxis := report_ryAxis g;
     report_zAxis := report_zAxis g; report_rzAxis := report_rzAxis g;
     report_dPad1 := report_dPad1 g; report_dPad2 := report_dPad2 g |}.

Definition press (b : ButtonMappings) : M unit := update (press_report b).

Definition set_dPad1 (d : Z) (g : GamepadReport) : GamepadReport :=
  {| report_buttons := report_buttons g;
     report_xAxis := report_xAxis g; report_yAxis := report_yAxis g;
     report_rxAxis := report_rxAxis g; report_ryAxis := report_ryAxis g;
     report_zAxis := report_zAxis g; report_rzAxis := report_rzAxis g;
     report_dPad1 := to_int8 d mod 16; report_dPad2 := report_dPad2 g |}.

Definition dPad1 (d : Z) : M unit := update (set_dPad1 d).

Definition set_xAxis (a : Z) (g : GamepadReport) : GamepadReport :=
  {| report_buttons := report_buttons g;
     report_xAxis := to_int16 a; report_yAxis := report_yAxis g;
     report_rxAxis := report_rxAxis g; report_ryAxis := report_ryAxis g;
     report_zAxis := report_zAxis g; report_rzAxis := report_rzAxis g;
     report_dPad1 := report_dPad1 g; report_dPad2 := report_dPad2 g |}.

Definition xAxis (a : Z) : M unit := update (set_xAxis a).

Definition set_yAxis (a : Z) (g : GamepadReport) : GamepadReport :=
  {| report_buttons := report_buttons g;
     report_xAxis := report_xAxis g; report_yAxis := to_int16 a;
     report_rxAxis := report_rxAxis g; report_ryAxis := report_ryAxis g;
     report_zAxis := report_zAxis g; report_rzAxis := report_rzAxis g;
     report_dPad1 := report_dPad1 g; report_dPad2 := report_dPad2 g |}.

Definition yAxis (a : Z) : M unit := update (set_yAxis a).

Definition set_rxAxis (a : Z) (g : GamepadReport) : GamepadReport :=
  {| report_buttons := report_buttons g;
     report_xAxis := report_xAxis g; report_yAxis := report_yAxis g;
     report_rxAxis := to_int16 a; report_ryAxis := report_ryAxis g;
     report_zAxis := report_zAxis g; report_rzAxis := report_rzAxis g;
     report_dPad1 := report_dPad1 g; report_dPad2 := report_dPad2 g |}.

Definition rxAxis (a : Z) : M unit := update (set_rxAxis a).

Definition set_ryAxis (a : Z) (g : GamepadReport) : GamepadReport :=
  {| report_buttons := report_buttons g;
     report_xAxis := report_xAxis g; report_yAxis := report_yAxis g;
     report_rxAxis := report_rxAxis g; report_ryAxis := to_int16 a;
     report_zAxis := report_zAxis g; report_rzAxis := report_rzAxis g;
     report_dPad1 := report_dPad1 g; report_dPad2 := report_dPad2 g |}.

Definition ryAxis (a : Z) : M unit := update (set_ryAxis a).

Definition set_zAxis (a : Z) (g : GamepadReport) : GamepadReport :=
  {| report_buttons := report_buttons g;
     report_xAxis := report_xAxis g; report_yAxis := report_yAxis g;
     report_rxAxis := report_rxAxis g; report_ryAxis := report_ryAxis g;
     report_zAxis := to_int8 a; report_rzAxis := report_rzAxis g;
     report_dPad1 := report_dPad1 g; report_dPad2 := report_dPad2 g |}.

Definition zAxis (a : Z) : M unit := update (set_zAxis a).

Definition set_rzAxis (a : Z) (g : GamepadReport) : GamepadReport :=
  {| report_buttons := report_buttons g;
     report_xAxis := report_xAxis g; report_yAxis := report_yAxis g;
     report_rxAxis := report_rxAxis g; report_ryAxis := report_ryAxis g;
     report_zAxis := report_zAxis g; report_rzAxis := to_int8 a;
     report_dPad1 := report_dPad1 g; report_dPad2 := report_dPad2 g |}.

Definition rzAxis (a : Z) : M unit := update (set_rzAxis a).

End Gamepad.

(** ** The sketch *)

Definition i2cWrite (data : list Z) (len : Z) : M Z :=
  err <- Wire.transmit (take (Z.to_nat len) data) ;;
  ret err.

Definition i2cWrite1 (data : Z) : M Z :=
  let arr := [data] in
  i2cWrite arr 1.

(** [while (Wire.available() < len) delay(1);] with [patience] chunks
    of the answer still due.  Nothing arrives after the last chunk, so a
    loop that is still short of [len] bytes then never ends. *)
Fixpoint wait_available (patience : nat) (len : Z) : M unit :=
  n <- Wire.available ;;
  if n <? len then
    match patience with
    | O => fail Blocked
    | S p => delay 1 ;; wait_available p len
    end
  else ret tt.

Definition wait_for (len : Z) : M unit := fun w =>
  wait_available (length (pending w)) len w.

(** The bytes read take the place of the first bytes of the buffer. *)
Definition store (got buffer : list Z) : list Z :=
  got ++ drop (length got) buffer.

(** Returns the status and the [result] buffer as the call leaves it. *)
Definition i2cRead (address len : Z) (result : list Z) : M (Z * list Z) :=
  err <- i2cWrite1 address ;;
  if negb (err =? 0) then ret (err, result)
  else
    delay 1 ;;
    Wire.requestFrom len ;;
    wait_for len ;;
    got <- Wire.readBytes len ;;
    ret (0, store got result).

Definition initController : M unit :=
  err1 <- i2cWrite INIT_DATA_1 (Z.of_nat (length INIT_DATA_1)) ;;
  err2 <- i2cWrite INIT_DATA_2 (Z.of_nat (length INIT_DATA_2)) ;;
  ret tt.

Definition updateGamepad (data : ControllerData) : M unit :=
  Gamepad.releaseAll ;;
  d <- (match getDpadValue data with
        | Some d => ret d
        | None => fail OutOfBounds
        end) ;;
  Gamepad.dPad1 d ;;
  when (button_right_trigger data =? 0) (Gamepad.press BUTTON_RIGHT_TRIGGER) ;;
  when (button_plus data =? 0) (Gamepad.press BUTTON_PLUS) ;;
  when (button_home data =? 0) (Gamepad.press BUTTON_HOME) ;;
  when (button_minus data =? 0) (Gamepad.press BUTTON_MINUS) ;;
  when (button_left_trigger data =? 0) (Gamepad.press BUTTON_LEFT_TRIGGER) ;;
  when (button_zr data =? 0) (Gamepad.press BUTTON_ZR) ;;
  when (button_x data =? 0) (Gamepad.press BUTTON_X) ;;
  when (button_a data =? 0) (Gamepad.press BUTTON_A) ;;
  when (button_y data =? 0) (Gamepad.press BUTTON_Y) ;;
  when (button_b data =? 0) (Gamepad.press BUTTON_B) ;;
  when (button_zl data =? 0) (Gamepad.press BUTTON_ZL) ;;
  Gamepad.xAxis (int_shl (int_sub (to_int16 (left_stick_x data)) 32) 10) ;;
  Gamepad.yAxis (int_shl (int_sub (to_int16 (left_stick_y data)) 32) 10) ;;
  Gamepad.rxAxis (int_shl (int_sub (to_int16 (getRightStickX data)) 16) 11) ;;
  Gamepad.ryAxis (int_shl (int_sub (to_int16 (right_stick_y data)) 16) 11) ;;
  Gamepad.zAxis (int_shl (to_int8 (getLeftTrigger data)) 2) ;;
  Gamepad.rzAxis (int_shl (to_int8 (right_trigger data)) 2).

Section Sketch.

(** What the memory of a local variable holds before it is written. *)
Variable stack : list Z.

(** Debug mode is off: the identification is read and dropped. *)
Definition getControllerId : M unit :=
  let id := stack in
  r <- i2cRead ID_ADDRESS ID_LEN id ;;
  ret tt.

Definition getControllerData (data : list Z) : M (Z * list Z) :=
  r <- i2cRead DATA_ADDRESS DATA_LEN data ;;
  ret r.

Definition setup : M unit :=
  pinMode DEVICE_DETECT_PIN INPUT ;;
  pinMode LED_BUILTIN OUTPUT ;;
  Wire.setClock I2C_CLOCK_SPEED ;;
  Wire.begin ;;
  Gamepad.begin ;;
  Gamepad.releaseAll ;;
  initController ;;
  getControllerId.

Definition loop : M unit :=
  start <- millis ;;
  let data := stack in
  r <- getControllerData data ;;
  (if r.1 =? 0 then updateGamepad (unpack r.2) else ret tt) ;;
  Gamepad.write ;;
  t <- millis ;;
  let duration := to_ulong (t - start) in
  let shouldSleep := duration <? POLL_INTERVAL_MS in
  digitalWrite LED_BUILTIN (if shouldSleep then false else true) ;;
  when shouldSleep (delay (to_ulong (POLL_INTERVAL_MS - duration))).

(** [n] rounds of the main loop. *)
Fixpoint cycles (n : nat) : M unit :=
  match n with
  | O => ret tt
  | S k => loop ;; cycles k
  end.

(** The program up to the end of its [n]th poll. *)
Definition sketch (n : nat) : M unit := setup ;; cycles n.

End Sketch.

(** What a run sends to the USB host. *)
Definition usb_output (t : list Event) : list GamepadReport :=
  omap (fun e => match e with UsbReport r => Some r | _ => None end) t.

(** The field of the report that [updateGamepad] tests for a button. *)
Definition button_field (b : ButtonMappings) (d : ControllerData) : Z :=
  match b with
  | BUTTON_A => button_a d
  | BUTTON_B => button_b d
  | BUTTON_X => button_x d
  | BUTTON_Y => button_y d
  | BUTTON_PLUS => button_plus d
  | BUTTON_HOME => button_home d
  | BUTTON_MINUS => button_minus d
  | BUTTON_LEFT_TRIGGER => button_left_trigger d
  | BUTTON_RIGHT_TRIGGER => button_right_trigger d
  | BUTTON_ZL => button_zl d
  | BUTTON_ZR => button_zr d
  end.

(** [if (c) Gamepad.press(b);] on the report. *)
Definition press_when (c : bool) (b : ButtonMappings) (g : GamepadReport) :=
  if c then Gamepad.press_report b g else g.

(** The report that [updateGamepad] builds, with [v] the dpad value:
    the steps of [updateGamepad] applied to the empty report, the last
    step outermost. *)
Definition decoded (d : ControllerData) (v : Z) : GamepadReport :=
  Gamepad.set_rzAxis (int_shl (to_int8 (right_trigger d)) 2)
  (Gamepad.set_zAxis (int_shl (to_int8 (getLeftTrigger d)) 2)
  (Gamepad.set_ryAxis (int_shl (int_sub (to_int16 (right_stick_y d)) 16) 11)
  (Gamepad.set_rxAxis (int_shl (int_sub (to_int16 (getRightStickX d)) 16) 11)
  (Gamepad.set_yAxis (int_shl (int_sub (to_int16 (left_stick_y d)) 32) 10)
  (Gamepad.set_xAxis (int_shl (int_sub (to_int16 (left_stick_x d)) 32) 10)
  (press_when (button_zl d =? 0) BUTTON_ZL
  (press_when (button_b d =? 0) BUTTON_B
  (press_when (button_y d =? 0) BUTTON_Y
  (press_when (button_a d =? 0) BUTTON_A
  (press_when (button_x d =? 0) BUTTON_X
  (press_when (button_zr d =? 0) BUTTON_ZR
  (press_when (button_left_trigger d =? 0) BUTTON_LEFT_TRIGGER
  (press_when (button_minus d =? 0) BUTTON_MINUS
  (press_when (button_home d =? 0) BUTTON_HOME
  (press_when (button_plus d =? 0) BUTTON_PLUS
  (press_when (button_right_trigger d =? 0) BUTTON_RIGHT_TRIGGER
  (Gamepad.set_dPad1 v zero_report))))))))))))))))).

(** Only bits that stand for one of the eleven buttons can be set. *)
Definition button_bits_only (g : GamepadReport) : Prop :=
  forall i, Z.testbit (report_buttons g) i = true ->
            exists b, i = button_number b - 1.

(** Where a button's bit sits on the wire: the byte of the report and the
    bit within it. *)
Definition button_position (b : ButtonMappings) : nat * Z :=
  match b with
  | BUTTON_RIGHT_TRIGGER => (4%nat, 1)
  | BUTTON_PLUS => (4%nat, 2)
  | BUTTON_HOME => (4%nat, 3)
  | BUTTON_MINUS => (4%nat, 4)
  | BUTTON_LEFT_TRIGGER => (4%nat, 5)
  | BUTTON_ZR => (5%nat, 2)
  | BUTTON_X => (5%nat, 3)
  | BUTTON_A => (5%nat, 4)
  | BUTTON_Y => (5%nat, 5)
  | BUTTON_B => (5%nat, 6)
  | BUTTON_ZL => (5%nat, 7)
  end.

Definition raw_bit (b : ButtonMappings) (raw : list Z) : bool :=
  Z.testbit (nth (button_position b).1 raw 0) (button_position b).2.

(** The world after a wait of [k] rounds of [delay(1)]. *)
Definition waited (k : nat) (w : World) : World :=
  Nat.iter k (fun w => log (Delay 1) (tick w)) w.

(** The world once the register pointer has gone out. *)
Definition sent (address : Z) (w : World) : World :=
  (Wire.transmit [address] w).2.

(** The world at the request for [len] bytes. *)
Definition requested (address len : Z) (w : World) : World :=
  (Wire.requestFrom len (log (Delay 1) (tick (sent address w)))).2.

(** The end of a round of [loop] that began at [start]: the report goes
    out and the round is filled up to the poll interval. *)
Definition pace (start : Z) : M unit :=
  Gamepad.write ;;
  t <- millis ;;
  let duration := to_ulong (t - start) in
  let shouldSleep := duration <? POLL_INTERVAL_MS in
  digitalWrite LED_BUILTIN (if shouldSleep then false else true) ;;
  when shouldSleep (delay (to_ulong (POLL_INTERVAL_MS - duration))).

(** Two worlds that differ at most in what the bus has delivered and not
    yet handed to the program: the armed answer, the receive buffer and
    the chunks still due. *)
Record sim (w1 w2 : World) : Prop := {
  sim_script : script w1 = script w2;
  sim_now : now w1 = now w2;
  sim_gamepad : gamepad w1 = gamepad w2;
  sim_trace : trace w1 = trace w2
}.

(** A computation that cannot tell such worlds apart. *)
Definition respects {A} (m : M A) : Prop :=
  forall w1 w2, sim w1 w2 ->
    (m w1).1 = (m w2).1 /\ sim (m w1).2 (m w2).2.

(** Two worlds that differ at most in the bytes of the next answer, not
    in its status nor in how many bytes come when. *)
Record same_but_answer (w1 w2 : World) : Prop := {
  sba_ack : ack (hd absent (script w1)) = ack (hd absent (script w2));
  sba_shape : map length (reply (hd absent (script w1))) =
              map length (reply (hd absent (script w2)));
  sba_script : tl (script w1) = tl (script w2);
  sba_now : now w1 = now w2;
  sba_gamepad : gamepad w1 = gamepad w2;
  sba_trace : trace w1 = trace w2
}.

(** The world in which [setup] comes to [getControllerId], when the
    peripheral answers the two initialisation writes with [x1] and [x2]
    and has [s] in store after that. *)
Definition prepared (x1 x2 : Exchange) (s : list Exchange) : World :=
  {| script := s; armed := reply x2; rx := []; pending := []; now := 0;
     gamepad := zero_report;
     trace := [ PinMode DEVICE_DETECT_PIN INPUT; PinMode LED_BUILTIN OUTPUT;
                WireSetClock I2C_CLOCK_SPEED; WireBegin;
                UsbReport zero_report;
                Transmission INIT_DATA_1 (ack x1);
                Transmission INIT_DATA_2 (ack x2) ] |}.

(** What has reached the receive buffer [j] milliseconds after the
    request, for an answer that comes in [chunks]. *)
Definition arrived (chunks : list (list Z)) (j : nat) : list Z :=
  concat (take (S j) chunks).

(** What a run puts on the bus: the bytes of each transmission. *)
Definition transmissions (t : list Event) : list (list Z) :=
  omap (fun e => match e with Transmission d _ => Some d | _ => None end) t.


(** Which dpad buttons a report shows held: left, up, right, down. *)
Definition dpad_held (d : ControllerData) : bool * bool * bool * bool :=
  (button_left d =? 0, button_up d =? 0, button_right d =? 0,
   button_down d =? 0).

(** A dpad cannot be pushed two opposite ways at once. *)
Definition dpad_possible (d : ControllerData) : Prop :=
  (button_up d =? 0) && (button_down d =? 0) = false /\
  (button_left d =? 0) && (button_right d =? 0) = false.


(** The world in which [setup] comes to [getControllerId]. *)
Definition initialised (w : World) : World :=
  {| script := tl (tl (script w));
     armed := reply (hd absent (tl (script w)));
     rx := rx w; pending := pending w; now := now w;
     gamepad := zero_report;
     trace := trace w ++
              [ PinMode DEVICE_DETECT_PIN INPUT; PinMode LED_BUILTIN OUTPUT;
                WireSetClock I2C_CLOCK_SPEED; WireBegin;
                UsbReport zero_report;
                Transmission INIT_DATA_1 (ack (hd absent (script w)));
                Transmission INIT_DATA_2 (ack (hd absent (tl (script w)))) ] |}.

(** Sample answers of the peripheral. *)
Definition acked : Exchange := {| ack := 0; reply := [] |}.
Definition answers (bytes : list Z) : Exchange := {| ack := 0; reply := [bytes] |}.
Definition refused : Exchange := {| ack := 2; reply := [] |}.

(** Sample reports, as the six bytes on the wire. *)

(** Sticks centred, nothing held. *)
Definition report_idle : list Z := [0x20; 0x20; 0x10; 0x00; 0xff; 0xff].

(** Sticks centred, all eleven buttons held, dpad free. *)
Definition report_all_buttons : list Z := [0x20; 0x20; 0x10; 0x00; 0xc1; 0x03].

(** Right stick x fragments 11, 01 and 1. *)
Definition report_right_stick : list Z := [0xc0; 0x40; 0x80; 0x00; 0xff; 0xff].

(** Left trigger fragments 10 (in byte 2) and 111 (in byte 3). *)
Definition report_left_trigger : list Z := [0x00; 0x00; 0x40; 0xe0; 0xff; 0xff].

(** Left trigger fragments 11 (in byte 2) and 101 (in byte 3). *)
Definition report_left_trigger' : list Z := [0x00; 0x00; 0x60; 0xa0; 0xff; 0xff].

(** * Properties *)

(** ** Machine integers *)

Lemma to_int8_small x : -128 <= x < 128 -> to_int8 x = x.
Proof. intros H. unfold to_int8. rewrite Z.mod_small; lia. Qed.

Lemma to_int16_small x : -32768 <= x < 32768 -> to_int16 x = x.
Proof. intros H. unfold to_int16. rewrite Z.mod_small; lia. Qed.

Lemma bitfield_fits b pos width : 0 <= width -> fits width (bitfield b pos width).
Proof.
  intros Hw. unfold fits, bitfield.
  rewrite Z.land_ones by assumption.
  apply Z.mod_pos_bound, Z.pow_pos_nonneg; lia.
Qed.

Lemma fits_1 v : fits 1 v -> v = 0 \/ v = 1.
Proof. unfold fits. lia. Qed.

Lemma fits_2 v : fits 2 v -> v = 0 \/ v = 1 \/ v = 2 \/ v = 3.
Proof. unfold fits. lia. Qed.

Lemma fits_3 v :
  fits 3 v ->
  v = 0 \/ v = 1 \/ v = 2 \/ v = 3 \/ v = 4 \/ v = 5 \/ v = 6 \/ v = 7.
Proof. unfold fits. lia. Qed.

(** Splits a goal over the values a narrow field can take. *)
Ltac enumerate H :=
  first
    [ destruct (fits_1 _ H) as [-> | ->]
    | destruct (fits_2 _ H) as [-> | [-> | [-> | ->]]]
    | destruct (fits_3 _ H)
        as [-> | [-> | [-> | [-> | [-> | [-> | [-> | ->]]]]]]] ].

(** ** Controller data *)

(** Whatever the bytes, unpacking yields fields within their widths. *)
Lemma unpack_well_formed raw : well_formed (unpack raw).
Proof. constructor; cbn [unpack left_stick_x right_stick_x1 left_stick_y
  right_stick_x2 right_stick_y left_trigger1 right_stick_x3 right_trigger
  left_trigger2 dummy button_right_trigger button_plus button_home
  button_minus button_left_trigger button_down button_right button_up
  button_left button_zr button_x button_a button_y button_b button_zl];
  apply bitfield_fits; lia.
Qed.

(** C7: the right stick x value is [(hi << 3) | (mid << 1) | lo] of its
    three fragments, a five-bit number with the fragments side by side;
    with hi = 0b11, mid = 0b01 and lo = 1 it is 27. *)
Theorem right_stick_x_reassembly (d : ControllerData) :
  well_formed d ->
  let hi := right_stick_x1 d in
  let mid := right_stick_x2 d in
  let lo := right_stick_x3 d in
  getRightStickX d = Z.lor (Z.lor (Z.shiftl hi 3) (Z.shiftl mid 1)) lo /\
  getRightStickX d = 8 * hi + 2 * mid + lo /\
  fits 5 (getRightStickX d) /\
  (hi = 3 -> mid = 1 -> lo = 1 -> getRightStickX d = 27).
Proof.
  intros Hwf hi mid lo.
  pose proof (wf_right_stick_x1 d Hwf) as H1.
  pose proof (wf_right_stick_x2 d Hwf) as H2.
  pose proof (wf_right_stick_x3 d Hwf) as H3.
  unfold getRightStickX. subst hi mid lo.
  enumerate H1; enumerate H2; enumerate H3;
    repeat split; intros; first [reflexivity | discriminate].
Qed.

Lemma right_stick_x_reassembly_witness :
  getRightStickX (unpack report_right_stick) = 27.
Proof.
  refine (proj2 (proj2 (proj2
    (right_stick_x_reassembly (unpack report_right_stick) _))) _ _ _);
    [ constructor; vm_compute; (split; [discriminate | reflexivity])
    | reflexivity | reflexivity | reflexivity ].
Defined.

(** C2, as the code has it: the left trigger value is [(hi << 3) | lo]
    of a two-bit high fragment and a three-bit low fragment, a five-bit
    number; with hi = 0b10 and lo = 0b111 it is 23. *)
Theorem left_trigger_reassembly (d : ControllerData) :
  well_formed d ->
  let hi := left_trigger1 d in
  let lo := left_trigger2 d in
  fits 2 hi /\ fits 3 lo /\
  getLeftTrigger d = Z.lor (Z.shiftl hi 3) lo /\
  getLeftTrigger d = 8 * hi + lo /\
  fits 5 (getLeftTrigger d) /\
  (hi = 2 -> lo = 7 -> getLeftTrigger d = 23).
Proof.
  intros Hwf hi lo.
  pose proof (wf_left_trigger1 d Hwf) as H1.
  pose proof (wf_left_trigger2 d Hwf) as H2.
  split; [assumption | split; [assumption |]].
  unfold getLeftTrigger. subst hi lo.
  enumerate H1; enumerate H2;
    repeat split; intros; first [reflexivity | discriminate].
Qed.

Lemma left_trigger_reassembly_witness :
  getLeftTrigger (unpack report_left_trigger) = 23.
Proof.
  refine (proj2 (proj2 (proj2 (proj2 (proj2
    (left_trigger_reassembly (unpack report_left_trigger) _))))) _ _);
    [ constructor; vm_compute; (split; [discriminate | reflexivity])
    | reflexivity | reflexivity ].
Defined.

(** C2, as the specification states it, does not hold: with the
    three-bit fragment 0b101 and the two-bit fragment 0b11 the value is
    29, not 23, and it is [(hi << 2) | lo] for neither choice of the high
    fragment. *)
Lemma left_trigger_shift_by_two_fails :
  let d := unpack report_left_trigger' in
  well_formed d /\
  left_trigger2 d = 5 /\ left_trigger1 d = 3 /\
  getLeftTrigger d = 29 /\
  getLeftTrigger d <> 23 /\
  getLeftTrigger d <> Z.lor (Z.shiftl (left_trigger2 d) 2) (left_trigger1 d) /\
  getLeftTrigger d <> Z.lor (Z.shiftl (left_trigger1 d) 2) (left_trigger2 d).
Proof.
  split; [apply unpack_well_formed |].
  repeat split; try reflexivity; vm_compute; discriminate.
Qed.

(** ** The directional pad *)

(** The index is a function of which of the four dpad bits are clear. *)
Lemma dpad_index_bits (d : ControllerData) :
  dpad_index d =
  Z.lor (Z.lor (Z.lor (Z.shiftl (of_bool (button_left d =? 0)) 3)
                      (Z.shiftl (of_bool (button_up d =? 0)) 2))
               (Z.shiftl (of_bool (button_right d =? 0)) 1))
        (of_bool (button_down d =? 0)).
Proof.
  unfold dpad_index.
  destruct (button_left d =? 0), (button_up d =? 0),
    (button_right d =? 0), (button_down d =? 0); reflexivity.
Qed.

Lemma dpad_index_range (d : ControllerData) : 0 <= dpad_index d <= 15.
Proof.
  unfold dpad_index.
  destruct (button_left d =? 0), (button_up d =? 0),
    (button_right d =? 0), (button_down d =? 0); vm_compute;
    split; discriminate.
Qed.

Lemma getDpadValue_defined (d : ControllerData) :
  exists v, getDpadValue d = Some v /\ v ∈ dpad_values.
Proof.
  unfold getDpadValue, dpad_index.
  destruct (button_left d =? 0), (button_up d =? 0),
    (button_right d =? 0), (button_down d =? 0);
    eexists; (split; [reflexivity |]);
    apply list_elem_of_In; vm_compute; tauto.
Qed.

(** C3: after inversion the four dpad bits form the index
    [(left << 3) | (up << 2) | (right << 1) | down] into a table of 16
    entries; whatever the bits, the lookup yields one of the nine
    directional values; nothing held and all four held give centered; up
    with down gives one of the two, and so does left with right. *)
Theorem dpad_disambiguation (d : ControllerData) :
  let left := button_left d =? 0 in
  let up := button_up d =? 0 in
  let right := button_right d =? 0 in
  let down := button_down d =? 0 in
  let index :=
    Z.lor (Z.lor (Z.lor (Z.shiftl (of_bool left) 3) (Z.shiftl (of_bool up) 2))
                 (Z.shiftl (of_bool right) 1))
          (of_bool down) in
  dpad_index d = index /\
  length DPAD_MAPPINGS = 16%nat /\
  length dpad_values = 9%nat /\ NoDup dpad_values /\
  (exists v, DPAD_MAPPINGS !! Z.to_nat index = Some v /\
             getDpadValue d = Some v /\ v ∈ dpad_values) /\
  match left, up, right, down with
  | false, false, false, false
  | true, true, true, true =>
      getDpadValue d = Some GAMEPAD_DPAD_CENTERED
  | false, true, false, true =>
      getDpadValue d = Some GAMEPAD_DPAD_UP \/
      getDpadValue d = Some GAMEPAD_DPAD_DOWN
  | true, false, true, false =>
      getDpadValue d = Some GAMEPAD_DPAD_LEFT \/
      getDpadValue d = Some GAMEPAD_DPAD_RIGHT
  | _, _, _, _ => True
  end.
Proof.
  intros left up right down index.
  split; [apply dpad_index_bits |].
  split; [reflexivity |].
  split; [reflexivity |].
  split.
  { apply NoDup_ListNoDup. repeat constructor; vm_compute;
      intuition discriminate. }
  split.
  - destruct (getDpadValue_defined d) as (v & Hv & Hin).
    exists v. split; [| split; assumption].
    unfold getDpadValue in Hv. rewrite dpad_index_bits in Hv.
    fold left up right down index in Hv.
    destruct (index <? 0); [discriminate | exact Hv].
  - unfold getDpadValue, dpad_index. subst left up right down index.
    destruct (button_left d =? 0), (button_up d =? 0),
      (button_right d =? 0), (button_down d =? 0); cbv beta iota; auto.
Qed.

(** ** Running computations *)

Lemma bind_ret {A B} (a : A) (k : A -> M B) w : (x <- ret a ;; k x) w = k a w.
Proof. reflexivity. Qed.

Lemma bind_update {B} f (k : unit -> M B) w :
  (x <- Gamepad.update f ;; k x) w = k tt (with_gamepad (f (gamepad w)) w).
Proof. reflexivity. Qed.

(** The same on a world whose report is already known, so that a chain of
    updates keeps a single report term. *)
Lemma step_update {B} f (k : unit -> M B) g w :
  (x <- Gamepad.update f ;; k x) (with_gamepad g w) =
  k tt (with_gamepad (f g) w).
Proof. reflexivity. Qed.

Lemma step_when_press {B} c b (k : unit -> M B) g w :
  (x <- when c (Gamepad.press b) ;; k x) (with_gamepad g w) =
  k tt (with_gamepad (press_when c b g) w).
Proof. destruct c; reflexivity. Qed.

Lemma last_update f g w :
  Gamepad.update f (with_gamepad g w) = (inr tt, with_gamepad (f g) w).
Proof. reflexivity. Qed.

Lemma bind_assoc {A B C} (m : M A) (f : A -> M B) (g : B -> M C) w :
  (y <- (x <- m ;; f x) ;; g y) w = (x <- m ;; y <- f x ;; g y) w.
Proof. unfold bind. destruct (m w) as [[e | a] w']; reflexivity. Qed.

(** ** The gamepad report *)

Lemma press_report_bits b g i :
  Z.testbit (report_buttons (Gamepad.press_report b g)) i =
  (i <? 32) && (Z.testbit (report_buttons g) i || (i =? button_number b - 1)).
Proof.
  assert (0 <= button_number b - 1 < 32) as Hb by (destruct b; cbn; lia).
  cbn [Gamepad.press_report report_buttons]. unfold to_ulong.
  change 4294967296 with (2 ^ 32).
  destruct (Z.ltb_spec i 32) as [Hlt | Hge]; cbn [andb].
  - destruct (Z.ltb_spec i 0) as [Hneg | Hpos].
    + rewrite !Z.testbit_neg_r by lia.
      destruct (Z.eqb_spec i (button_number b - 1)); [lia | reflexivity].
    + rewrite Z.mod_pow2_bits_low by lia.
      rewrite Z.lor_spec, Z.shiftl_1_l, Z.pow2_bits_eqb by lia.
      rewrite (Z.eqb_sym i). reflexivity.
  - apply Z.mod_pow2_bits_high. lia.
Qed.

Lemma press_when_bits c b g i :
  0 <= i < 32 ->
  Z.testbit (report_buttons (press_when c b g)) i =
  Z.testbit (report_buttons g) i || (c && (i =? button_number b - 1)).
Proof.
  intros Hi. destruct c; cbn [press_when andb].
  - rewrite press_report_bits.
    destruct (Z.ltb_spec i 32); [reflexivity | lia].
  - rewrite orb_false_r. reflexivity.
Qed.

Lemma press_when_dPad1 c b g : report_dPad1 (press_when c b g) = report_dPad1 g.
Proof. destruct c; reflexivity. Qed.

Lemma press_when_dPad2 c b g : report_dPad2 (press_when c b g) = report_dPad2 g.
Proof. destruct c; reflexivity. Qed.

Lemma button_bits_only_press_when c b g :
  button_bits_only g -> button_bits_only (press_when c b g).
Proof.
  intros Hg i. destruct c; cbn [press_when]; [| apply Hg].
  rewrite press_report_bits. intros H.
  apply andb_prop in H as [_ H]. apply orb_prop in H as [H | H].
  - apply Hg, H.
  - exists b. apply Z.eqb_eq, H.
Qed.

Lemma dpad_values_range v : v ∈ dpad_values -> 0 <= v <= 8.
Proof.
  intros H. apply list_elem_of_In in H. vm_compute in H.
  intuition (subst; lia).
Qed.

(** [updateGamepad] replaces the report by [decoded]: what it leaves
    depends on the data alone, never on the report or the world it starts
    from. *)
Lemma updateGamepad_decoded (d : ControllerData) (v : Z) (w : World) :
  getDpadValue d = Some v ->
  updateGamepad d w = (inr tt, with_gamepad (decoded d v) w).
Proof.
  intros Hv. unfold updateGamepad. rewrite Hv.
  unfold Gamepad.releaseAll, Gamepad.dPad1, Gamepad.xAxis, Gamepad.yAxis,
    Gamepad.rxAxis, Gamepad.ryAxis, Gamepad.zAxis, Gamepad.rzAxis.
  rewrite bind_update; cbn beta.
  rewrite bind_ret.
  rewrite step_update; cbn beta.
  do 11 (rewrite step_when_press; cbn beta).
  do 5 (rewrite step_update; cbn beta).
  rewrite last_update. reflexivity.
Qed.

Lemma decoded_buttons d v :
  report_buttons (decoded d v) =
  report_buttons
    (press_when (button_zl d =? 0) BUTTON_ZL
    (press_when (button_b d =? 0) BUTTON_B
    (press_when (button_y d =? 0) BUTTON_Y
    (press_when (button_a d =? 0) BUTTON_A
    (press_when (button_x d =? 0) BUTTON_X
    (press_when (button_zr d =? 0) BUTTON_ZR
    (press_when (button_left_trigger d =? 0) BUTTON_LEFT_TRIGGER
    (press_when (button_minus d =? 0) BUTTON_MINUS
    (press_when (button_home d =? 0) BUTTON_HOME
    (press_when (button_plus d =? 0) BUTTON_PLUS
    (press_when (button_right_trigger d =? 0) BUTTON_RIGHT_TRIGGER
       (Gamepad.set_dPad1 v zero_report)))))))))))).
Proof. reflexivity. Qed.

Lemma decoded_pressed d v b : pressed b (decoded d v) = (button_field b d =? 0).
Proof.
  unfold pressed. rewrite decoded_buttons.
  assert (0 <= button_number b - 1 < 32) as Hb by (destruct b; cbn; lia).
  rewrite !press_when_bits by exact Hb.
  cbn [report_buttons zero_report Gamepad.set_dPad1]. rewrite Z.bits_0.
  destruct b; cbn [button_number button_field];
    repeat match goal with
           | |- context [?x =? ?y] =>
               is_ground x; is_ground y;
               let r := eval vm_compute in (x =? y) in
               change (x =? y) with r
           end;
    rewrite ?andb_false_r, ?andb_true_r, ?orb_false_r, ?orb_false_l;
    reflexivity.
Qed.

Lemma decoded_bits_only d v : button_bits_only (decoded d v).
Proof.
  unfold button_bits_only. rewrite decoded_buttons.
  repeat apply button_bits_only_press_when.
  intros i. cbn [report_buttons zero_report Gamepad.set_dPad1].
  rewrite Z.bits_0. discriminate.
Qed.

Lemma decoded_dPad1 d v : v ∈ dpad_values -> report_dPad1 (decoded d v) = v.
Proof.
  intros Hin. apply dpad_values_range in Hin.
  unfold decoded.
  cbn [report_dPad1 Gamepad.set_rzAxis Gamepad.set_zAxis Gamepad.set_ryAxis
       Gamepad.set_rxAxis Gamepad.set_yAxis Gamepad.set_xAxis].
  rewrite !press_when_dPad1. cbn [report_dPad1 Gamepad.set_dPad1].
  rewrite to_int8_small by lia. apply Z.mod_small. lia.
Qed.

Lemma decoded_dPad2 d v : report_dPad2 (decoded d v) = 0.
Proof.
  unfold decoded.
  cbn [report_dPad2 Gamepad.set_rzAxis Gamepad.set_zAxis Gamepad.set_ryAxis
       Gamepad.set_rxAxis Gamepad.set_yAxis Gamepad.set_xAxis].
  rewrite !press_when_dPad2. reflexivity.
Qed.

(** What [updateGamepad] leaves in the report. *)
Lemma updateGamepad_run (d : ControllerData) :
  exists g,
    (forall w, updateGamepad d w = (inr tt, with_gamepad g w)) /\
    (forall b, pressed b g = (button_field b d =? 0)) /\
    button_bits_only g /\
    report_xAxis g =
      to_int16 (int_shl (int_sub (to_int16 (left_stick_x d)) 32) 10) /\
    report_yAxis g =
      to_int16 (int_shl (int_sub (to_int16 (left_stick_y d)) 32) 10) /\
    report_rxAxis g =
      to_int16 (int_shl (int_sub (to_int16 (getRightStickX d)) 16) 11) /\
    report_ryAxis g =
      to_int16 (int_shl (int_sub (to_int16 (right_stick_y d)) 16) 11) /\
    report_zAxis g = to_int8 (int_shl (to_int8 (getLeftTrigger d)) 2) /\
    report_rzAxis g = to_int8 (int_shl (to_int8 (right_trigger d)) 2) /\
    getDpadValue d = Some (report_dPad1 g) /\
    report_dPad2 g = 0.
Proof.
  destruct (getDpadValue_defined d) as (v & Hv & Hin).
  exists (decoded d v).
  split; [intros w; apply updateGamepad_decoded, Hv |].
  split; [apply decoded_pressed |].
  split; [apply decoded_bits_only |].
  do 6 (split; [reflexivity |]).
  split; [| apply decoded_dPad2].
  rewrite decoded_dPad1 by exact Hin. exact Hv.
Qed.

Lemma bitfield_1 x pos : 0 <= pos -> bitfield x pos 1 = Z.b2z (Z.testbit x pos).
Proof.
  intros Hpos. unfold bitfield.
  rewrite Z.land_ones by lia.
  change (2 ^ 1) with 2. rewrite <- Z.bit0_mod.
  rewrite Z.shiftr_spec by lia. reflexivity.
Qed.

(** A button's field of the unpacked report is its bit on the wire. *)
Lemma button_field_unpack b raw :
  button_field b (unpack raw) = Z.b2z (raw_bit b raw).
Proof.
  unfold raw_bit.
  destruct b; cbn [button_field unpack button_position fst snd
    button_right_trigger button_plus button_home button_minus
    button_left_trigger button_zr button_x button_a button_y button_b
    button_zl]; apply bitfield_1; lia.
Qed.

Lemma getRightStickX_value (d : ControllerData) :
  well_formed d ->
  getRightStickX d = 8 * right_stick_x1 d + 2 * right_stick_x2 d + right_stick_x3 d.
Proof.
  intros Hwf.
  pose proof (wf_right_stick_x1 d Hwf) as H1.
  pose proof (wf_right_stick_x2 d Hwf) as H2.
  pose proof (wf_right_stick_x3 d Hwf) as H3.
  unfold getRightStickX.
  enumerate H1; enumerate H2; enumerate H3; reflexivity.
Qed.

Lemma getLeftTrigger_value (d : ControllerData) :
  well_formed d ->
  getLeftTrigger d = 8 * left_trigger1 d + left_trigger2 d.
Proof.
  intros Hwf.
  pose proof (wf_left_trigger1 d Hwf) as H1.
  pose proof (wf_left_trigger2 d Hwf) as H2.
  unfold getLeftTrigger.
  enumerate H1; enumerate H2; reflexivity.
Qed.

(** C4: whatever the report and whatever the gamepad held before, a
    button comes out pressed exactly when its field is 0, that is when its
    bit on the wire is 0; two reports that agree on that bit agree on the
    button, whatever their other bits. *)
Theorem buttons_active_low (b : ButtonMappings) (d : ControllerData) (w : World) :
  exists w',
    updateGamepad d w = (inr tt, w') /\
    (pressed b (gamepad w') = true <-> button_field b d = 0) /\
    (forall raw, d = unpack raw ->
       (pressed b (gamepad w') = true <-> raw_bit b raw = false)) /\
    (forall d2 w2,
       button_field b d2 = button_field b d ->
       pressed b (gamepad (updateGamepad d2 w2).2) = pressed b (gamepad w')).
Proof.
  destruct (updateGamepad_run d) as (g & Hrun & Hpressed & _).
  exists (with_gamepad g w). split; [apply Hrun |].
  cbn [gamepad with_gamepad]. rewrite Hpressed.
  split; [apply Z.eqb_eq |]. split.
  - intros raw ->. rewrite button_field_unpack.
    destruct (raw_bit b raw); cbn; split; congruence.
  - intros d2 w2 Heq.
    destruct (updateGamepad_run d2) as (g2 & Hrun2 & Hpressed2 & _).
    rewrite Hrun2. cbn [snd gamepad with_gamepad].
    rewrite Hpressed2, Heq. reflexivity.
Qed.

Lemma buttons_active_low_witness :
  exists w',
    updateGamepad (unpack report_all_buttons) (boot []) = (inr tt, w') /\
    pressed BUTTON_A (gamepad w') = true.
Proof.
  destruct (buttons_active_low BUTTON_A (unpack report_all_buttons) (boot []))
    as (w' & Hrun & Hfield & _).
  exists w'. split; [exact Hrun | apply Hfield; reflexivity].
Defined.

Lemma stick6_scaled v :
  fits 6 v ->
  to_int16 (int_shl (int_sub (to_int16 v) 32) 10) = Z.shiftl (v - 32) 10.
Proof.
  unfold fits, int_shl, int_sub. intros H.
  rewrite (to_int16_small v) by lia.
  rewrite (to_int16_small (v - 32)) by lia.
  rewrite Z.shiftl_mul_pow2 by lia. change (2 ^ 10) with 1024.
  rewrite !(to_int16_small ((v - 32) * 1024)) by lia. reflexivity.
Qed.

Lemma stick5_scaled v :
  fits 5 v ->
  to_int16 (int_shl (int_sub (to_int16 v) 16) 11) = Z.shiftl (v - 16) 11.
Proof.
  unfold fits, int_shl, int_sub. intros H.
  rewrite (to_int16_small v) by lia.
  rewrite (to_int16_small (v - 16)) by lia.
  rewrite Z.shiftl_mul_pow2 by lia. change (2 ^ 11) with 2048.
  rewrite !(to_int16_small ((v - 16) * 2048)) by lia. reflexivity.
Qed.

Lemma trigger_scaled v :
  fits 5 v ->
  to_int8 (int_shl (to_int8 v) 2) = Z.shiftl v 2.
Proof.
  unfold fits, int_shl. intros H.
  rewrite (to_int8_small v) by lia.
  rewrite Z.shiftl_mul_pow2 by lia. change (2 ^ 2) with 4.
  rewrite to_int16_small by lia.
  apply to_int8_small. lia.
Qed.

Lemma getRightStickX_fits d : well_formed d -> fits 5 (getRightStickX d).
Proof.
  intros Hwf. rewrite getRightStickX_value by assumption.
  pose proof (wf_right_stick_x1 d Hwf). pose proof (wf_right_stick_x2 d Hwf).
  pose proof (wf_right_stick_x3 d Hwf). unfold fits in *. lia.
Qed.

Lemma getLeftTrigger_fits d : well_formed d -> fits 5 (getLeftTrigger d).
Proof.
  intros Hwf. rewrite getLeftTrigger_value by assumption.
  pose proof (wf_left_trigger1 d Hwf). pose proof (wf_left_trigger2 d Hwf).
  unfold fits in *. lia.
Qed.

(** C5: the six axes come out as exact integers, without wrap-around:
    the left stick as [(value - 32) << 10] of its six-bit fields, the right
    stick as [(value - 16) << 11] of its five-bit values, the triggers as
    [value << 2] of their five-bit values. *)
Theorem axes_scaled_exactly (d : ControllerData) (w : World) :
  well_formed d ->
  exists w',
    updateGamepad d w = (inr tt, w') /\
    report_xAxis (gamepad w') = Z.shiftl (left_stick_x d - 32) 10 /\
    report_yAxis (gamepad w') = Z.shiftl (left_stick_y d - 32) 10 /\
    report_rxAxis (gamepad w') = Z.shiftl (getRightStickX d - 16) 11 /\
    report_ryAxis (gamepad w') = Z.shiftl (right_stick_y d - 16) 11 /\
    report_zAxis (gamepad w') = Z.shiftl (getLeftTrigger d) 2 /\
    report_rzAxis (gamepad w') = Z.shiftl (right_trigger d) 2 /\
    fits 6 (left_stick_x d) /\ fits 6 (left_stick_y d) /\
    fits 5 (getRightStickX d) /\ fits 5 (right_stick_y d) /\
    fits 5 (getLeftTrigger d) /\ fits 5 (right_trigger d).
Proof.
  intros Hwf.
  destruct (updateGamepad_run d)
    as (g & Hrun & _ & _ & Hx & Hy & Hrx & Hry & Hz & Hrz & _).
  pose proof (getRightStickX_fits d Hwf) as Frx.
  pose proof (getLeftTrigger_fits d Hwf) as Flt.
  exists (with_gamepad g w). split; [apply Hrun |].
  cbn [gamepad with_gamepad].
  rewrite Hx, Hy, Hrx, Hry, Hz, Hrz.
  rewrite !stick6_scaled, !stick5_scaled, !trigger_scaled
    by (assumption || apply Hwf).
  repeat split; (reflexivity || apply Frx || apply Flt || apply Hwf).
Qed.

Lemma axes_scaled_exactly_witness :
  exists w',
    updateGamepad (unpack report_right_stick) (boot []) = (inr tt, w') /\
    report_xAxis (gamepad w') = -32768 /\
    report_rxAxis (gamepad w') = 22528.
Proof.
  destruct (axes_scaled_exactly (unpack report_right_stick) (boot []))
    as (w' & Hrun & Hx & _ & Hrx & _).
  - constructor; vm_compute; (split; [discriminate | reflexivity]).
  - exists w'. split; [exact Hrun |]. rewrite Hx, Hrx. split; reflexivity.
Defined.

(** ** Waiting for the answer *)

Lemma waited_S k w : waited (S k) w = waited k (log (Delay 1) (tick w)).
Proof.
  unfold waited.
  exact (Nat.iter_succ_r k World (fun w => log (Delay 1) (tick w)) w).
Qed.

Lemma waited_eq k w :
  waited k w =
  {| script := script w; armed := armed w;
     rx := rx w ++ concat (take k (pending w));
     pending := drop k (pending w);
     now := Nat.iter k (fun t => to_ulong (t + 1)) (now w);
     gamepad := gamepad w;
     trace := trace w ++ replicate k (Delay 1) |}.
Proof.
  revert w. induction k as [| k IH]; intros w.
  - destruct w. cbn. rewrite !app_nil_r. reflexivity.
  - rewrite waited_S, IH. rewrite Nat.iter_succ_r.
    cbn [log tick script armed rx pending now gamepad trace].
    f_equal.
    + destruct (pending w) as [| c p]; cbn [hd tl take concat].
      * rewrite take_nil. cbn [concat]. rewrite !app_nil_r. reflexivity.
      * rewrite <- app_assoc. reflexivity.
    + destruct (pending w) as [| c p]; cbn [tl drop];
        [apply drop_nil | reflexivity].
    + rewrite <- app_assoc. reflexivity.
Qed.

Lemma arrived_eq chunks j :
  hd [] chunks ++ concat (take j (tl chunks)) = arrived chunks j.
Proof.
  unfold arrived. destruct chunks; cbn [hd tl take concat].
  - rewrite take_nil. reflexivity.
  - reflexivity.
Qed.

Lemma arrived_prefix chunks j :
  concat chunks = arrived chunks j ++ concat (drop (S j) chunks).
Proof.
  unfold arrived. rewrite <- concat_app, take_drop. reflexivity.
Qed.

Lemma arrived_all chunks j :
  (length chunks <= S j)%nat -> arrived chunks j = concat chunks.
Proof. intros H. unfold arrived. rewrite take_ge by lia. reflexivity. Qed.

(** The wait ends at the first moment enough bytes are in, and not
    before; it never ends when the answer stays short for good. *)
Lemma wait_available_run len p w :
  length (pending w) = p ->
  (exists k, (k <= p)%nat /\
     wait_available p len w = (inr tt, waited k w) /\
     len <= Z.of_nat (length (rx (waited k w))) /\
     forall j, (j < k)%nat -> Z.of_nat (length (rx (waited j w))) < len) \/
  (wait_available p len w = (inl Blocked, waited p w) /\
   forall j, Z.of_nat (length (rx (waited j w))) < len).
Proof.
  revert w. induction p as [| p IH]; intros w Hp;
    cbn [wait_available bind Wire.available];
    destruct (Z.ltb_spec (Z.of_nat (length (rx w))) len) as [Hshort | Hfull].
  - right. split; [reflexivity |].
    intros j. rewrite waited_eq. cbn [rx].
    apply nil_length_inv in Hp. rewrite Hp, take_nil. cbn [concat].
    rewrite app_nil_r. exact Hshort.
  - left. exists 0%nat. repeat split; [lia | exact Hfull | lia].
  - change ((delay 1 ;; wait_available p len) w)
      with (wait_available p len (log (Delay 1) (tick w))).
    destruct (IH (log (Delay 1) (tick w))) as [(k & Hk & Hrun & Hin & Hnot) | [Hrun Hnot]].
    { cbn [log tick pending]. destruct (pending w); cbn in *; lia. }
    + left. exists (S k). rewrite waited_S.
      repeat split; [lia | exact Hrun | exact Hin |].
      intros [| j] Hj; [exact Hshort |]. rewrite waited_S. apply Hnot. lia.
    + right. rewrite waited_S. split; [exact Hrun |].
      intros [| j]; [exact Hshort |]. rewrite waited_S. apply Hnot.
  - left. exists 0%nat. repeat split; [lia | exact Hfull | lia].
Qed.

(** ** Reading a register *)

Lemma bind_transmit {B} data (k : Z -> M B) w :
  (x <- Wire.transmit data ;; k x) w =
  k (ack (hd absent (script w))) (Wire.transmit data w).2.
Proof. reflexivity. Qed.

Lemma i2cRead_unfold address len result w :
  i2cRead address len result w =
  if negb (ack (hd absent (script w)) =? 0)
  then (inr (ack (hd absent (script w)), result), sent address w)
  else (got <- (wait_for len ;; Wire.readBytes len) ;;
        ret (0, store got result)) (requested address len w).
Proof.
  unfold i2cRead, i2cWrite1, i2cWrite.
  rewrite bind_assoc, bind_transmit, bind_ret.
  destruct (negb (ack (hd absent (script w)) =? 0)); [reflexivity |].
  rewrite (bind_assoc (wait_for len)). reflexivity.
Qed.

Lemma rx_waited_requested address len j w :
  rx (waited j (requested address len w)) =
  arrived (reply (hd absent (script w))) j.
Proof. rewrite waited_eq. cbn [rx]. apply arrived_eq. Qed.

Lemma read_after_wait len result w2 w3 :
  wait_for len w2 = (inr tt, w3) ->
  (got <- (wait_for len ;; Wire.readBytes len) ;; ret (0, store got result)) w2 =
  (inr (0, store (take (Z.to_nat len) (rx w3)) result),
   (Wire.readBytes len w3).2).
Proof. intros H. unfold bind. rewrite H. reflexivity. Qed.

Lemma no_read_when_blocked len result f w2 w3 :
  wait_for len w2 = (inl f, w3) ->
  (got <- (wait_for len ;; Wire.readBytes len) ;; ret (0, store got result)) w2 =
  (inl f, w3).
Proof. intros H. unfold bind. rewrite H. reflexivity. Qed.

Lemma trace_waited k w : trace (waited k w) = trace w ++ replicate k (Delay 1).
Proof. rewrite waited_eq. reflexivity. Qed.

Lemma trace_sent address w :
  trace (sent address w) =
  trace w ++ [Transmission [address] (ack (hd absent (script w)))].
Proof. reflexivity. Qed.

Lemma trace_requested address len w :
  trace (requested address len w) =
  trace w ++ [Transmission [address] (ack (hd absent (script w)));
              Delay 1; RequestFrom len].
Proof.
  unfold requested, sent.
  cbn [Wire.requestFrom Wire.transmit snd log tick trace].
  rewrite <- !app_assoc. reflexivity.
Qed.

Lemma trace_readBytes len w :
  trace (Wire.readBytes len w).2 =
  trace w ++ [ReadBytes (Z.of_nat (length (take (Z.to_nat len) (rx w))))].
Proof. reflexivity. Qed.

Lemma i2cRead_fail address len result w :
  ack (hd absent (script w)) <> 0 ->
  i2cRead address len result w =
  (inr (ack (hd absent (script w)), result), sent address w).
Proof.
  intros Hack. rewrite i2cRead_unfold.
  destruct (Z.eqb_spec (ack (hd absent (script w))) 0); [contradiction | reflexivity].
Qed.

Lemma i2cRead_ok address len result w :
  ack (hd absent (script w)) = 0 ->
  0 <= len <= Z.of_nat (length (concat (reply (hd absent (script w))))) ->
  exists k,
    i2cRead address len result w =
      (inr (0, store (take (Z.to_nat len)
                        (concat (reply (hd absent (script w))))) result),
       (Wire.readBytes len (waited k (requested address len w))).2) /\
    len <= Z.of_nat (length (arrived (reply (hd absent (script w))) k)) /\
    forall j, (j < k)%nat ->
      Z.of_nat (length (arrived (reply (hd absent (script w))) j)) < len.
Proof.
  intros Hack Hlen. rewrite i2cRead_unfold, Hack. cbn [Z.eqb negb].
  set (w2 := requested address len w).
  destruct (wait_available_run len (length (pending w2)) w2 eq_refl)
    as [(k & _ & Hrun & Hin & Hnot) | [_ Hnot]].
  - exists k. unfold w2 in Hin, Hnot.
    rewrite rx_waited_requested in Hin.
    repeat split.
    + rewrite (read_after_wait len result w2 (waited k w2)) by exact Hrun.
      do 3 f_equal.
      unfold w2. rewrite rx_waited_requested.
      rewrite (arrived_prefix (reply (hd absent (script w))) k).
      rewrite take_app_le by lia. reflexivity.
    + exact Hin.
    + intros j Hj. rewrite <- rx_waited_requested with (address := address) (len := len).
      apply Hnot, Hj.
  - exfalso.
    specialize (Hnot (length (reply (hd absent (script w))))).
    unfold w2 in Hnot. rewrite rx_waited_requested in Hnot.
    rewrite arrived_all in Hnot by lia. lia.
Qed.

Lemma i2cRead_blocked address len result w :
  ack (hd absent (script w)) = 0 ->
  Z.of_nat (length (concat (reply (hd absent (script w))))) < len ->
  i2cRead address len result w =
  (inl Blocked,
   waited (length (tl (reply (hd absent (script w)))))
          (requested address len w)).
Proof.
  intros Hack Hlen. rewrite i2cRead_unfold, Hack. cbn [Z.eqb negb].
  set (w2 := requested address len w).
  destruct (wait_available_run len (length (pending w2)) w2 eq_refl)
    as [(k & _ & _ & Hin & _) | [Hrun _]].
  - exfalso. unfold w2 in Hin. rewrite rx_waited_requested in Hin.
    pose proof (arrived_prefix (reply (hd absent (script w))) k) as Hp.
    apply (f_equal length) in Hp. rewrite length_app in Hp. lia.
  - apply no_read_when_blocked. exact Hrun.
Qed.

(** C8: a read first writes the one-byte register pointer.  A nonzero
    status of that write is returned as it is and nothing is requested or
    read.  Otherwise the read waits a millisecond, requests the bytes,
    waits in steps of a millisecond until [len] bytes are in and no
    longer, puts exactly [len] bytes into the buffer and returns 0; when
    the bytes never come it waits for ever. *)
Theorem i2cRead_behaviour (address len : Z) (result : list Z) (w : World) :
  0 <= len ->
  let x := hd absent (script w) in
  let r := i2cRead address len result w in
  let answer := take (Z.to_nat len) (concat (reply x)) in
  (exists t, trace r.2 = trace w ++ Transmission [address] (ack x) :: t) /\
  (ack x <> 0 ->
     r.1 = inr (ack x, result) /\
     trace r.2 = trace w ++ [Transmission [address] (ack x)]) /\
  (ack x = 0 -> len <= Z.of_nat (length (concat (reply x))) ->
     exists k,
       r.1 = inr (0, store answer result) /\
       Z.of_nat (length answer) = len /\
       trace r.2 =
         trace w ++ [Transmission [address] 0; Delay 1; RequestFrom len] ++
         replicate k (Delay 1) ++ [ReadBytes len] /\
       len <= Z.of_nat (length (arrived (reply x) k)) /\
       forall j, (j < k)%nat -> Z.of_nat (length (arrived (reply x) j)) < len) /\
  (ack x = 0 -> Z.of_nat (length (concat (reply x))) < len ->
     r.1 = inl Blocked /\
     trace r.2 =
       trace w ++ [Transmission [address] 0; Delay 1; RequestFrom len] ++
       replicate (length (tl (reply x))) (Delay 1)).
Proof.
  intros Hlen x r answer.
  assert (ack x <> 0 ->
          r = (inr (ack x, result), sent address w)) as Hfail.
  { intros H. apply i2cRead_fail, H. }
  assert (ack x = 0 -> len <= Z.of_nat (length (concat (reply x))) ->
     exists k,
       r.1 = inr (0, store answer result) /\
       Z.of_nat (length answer) = len /\
       trace r.2 =
         trace w ++ [Transmission [address] 0; Delay 1; RequestFrom len] ++
         replicate k (Delay 1) ++ [ReadBytes len] /\
       len <= Z.of_nat (length (arrived (reply x) k)) /\
       forall j, (j < k)%nat -> Z.of_nat (length (arrived (reply x) j)) < len)
    as Hok.
  { intros Hack Hin.
    destruct (i2cRead_ok address len result w Hack (conj Hlen Hin))
      as (k & Hrun & Hk & Hnot).
    exists k. fold x in Hrun, Hk, Hnot. fold r in Hrun. fold answer in Hrun.
    assert (Z.of_nat (length answer) = len) as Hanswer.
    { unfold answer. rewrite length_take. lia. }
    rewrite Hrun. cbn [fst snd].
    repeat split; [exact Hanswer | | exact Hk | exact Hnot].
    rewrite trace_readBytes, trace_waited, trace_requested, rx_waited_requested.
    fold x. rewrite Hack.
    unfold answer in Hanswer.
    rewrite (arrived_prefix (reply x) k), take_app_le in Hanswer by lia.
    rewrite Hanswer. rewrite <- !app_assoc. reflexivity. }
  assert (ack x = 0 -> Z.of_nat (length (concat (reply x))) < len ->
     r.1 = inl Blocked /\
     trace r.2 =
       trace w ++ [Transmission [address] 0; Delay 1; RequestFrom len] ++
       replicate (length (tl (reply x))) (Delay 1)) as Hblocked.
  { intros Hack Hshort. unfold r.
    rewrite (i2cRead_blocked address len result w Hack Hshort).
    fold x. cbn [fst snd]. split; [reflexivity |].
    rewrite trace_waited, trace_requested.
    fold x. rewrite Hack. rewrite <- !app_assoc. reflexivity. }
  repeat split; try assumption.
  - destruct (Z.eq_dec (ack x) 0) as [Hack | Hack].
    + destruct (Z_lt_le_dec (Z.of_nat (length (concat (reply x)))) len) as [Hs | Hs].
      * destruct (Hblocked Hack Hs) as [_ ->]. rewrite Hack.
        eexists. cbn [app]. reflexivity.
      * destruct (Hok Hack Hs) as (k & _ & _ & -> & _). rewrite Hack.
        eexists. cbn [app]. reflexivity.
    + rewrite (Hfail Hack). eexists. reflexivity.
  - rewrite (Hfail H). reflexivity.
  - rewrite (Hfail H). reflexivity.
  - apply Hblocked; assumption.
  - apply Hblocked; assumption.
Qed.

Lemma i2cRead_behaviour_witness :
  (i2cRead DATA_ADDRESS 6 []
     (boot [ {| ack := 0; reply := [[1; 2]; [3; 4; 5]; [6; 7]] |} ])).1 =
  inr (0, [1; 2; 3; 4; 5; 6]).
Proof.
  pose proof (i2cRead_behaviour DATA_ADDRESS 6 []
    (boot [ {| ack := 0; reply := [[1; 2]; [3; 4; 5]; [6; 7]] |} ])) as H.
  cbv zeta in H.
  destruct H as (_ & _ & Hok & _); [lia |].
  destruct Hok as (k & Hr & _); [reflexivity | cbn; lia |].
  exact Hr.
Defined.

(** ** A round of the main loop *)

Lemma usb_output_app t1 t2 : usb_output (t1 ++ t2) = usb_output t1 ++ usb_output t2.
Proof. apply omap_app. Qed.

Lemma usb_output_delays k ms : usb_output (replicate k (Delay ms)) = [].
Proof. induction k as [| k IH]; [reflexivity | exact IH]. Qed.

Lemma bind_millis {B} (k : Z -> M B) w : (x <- millis ;; k x) w = k (now w) w.
Proof. reflexivity. Qed.

Lemma loop_unfold stack w :
  loop stack w =
  (r <- i2cRead DATA_ADDRESS DATA_LEN stack ;;
   (if r.1 =? 0 then updateGamepad (unpack r.2) else ret tt) ;;
   pace (now w)) w.
Proof.
  unfold loop, getControllerData. cbv beta zeta.
  rewrite bind_millis. rewrite bind_assoc. reflexivity.
Qed.

(** What the end of a round does: one report, the held one, goes out;
    the report and the script stay as they are. *)
Lemma pace_run start w :
  let duration := to_ulong (now w - start) in
  let sleeps := duration <? POLL_INTERVAL_MS in
  (pace start w).1 = inr tt /\
  gamepad (pace start w).2 = gamepad w /\
  script (pace start w).2 = script w /\
  trace (pace start w).2 =
    trace w ++ [UsbReport (gamepad w); DigitalWrite LED_BUILTIN (negb sleeps)] ++
    (if sleeps then [Delay (to_ulong (POLL_INTERVAL_MS - duration))] else []).
Proof.
  intros duration sleeps. unfold pace.
  cbn [bind Gamepad.write emit millis digitalWrite log trace now].
  fold duration. fold sleeps.
  assert (forall ms w0, gamepad (Nat.iter (Z.to_nat ms) tick w0) = gamepad w0
                     /\ script (Nat.iter (Z.to_nat ms) tick w0) = script w0
                     /\ trace (Nat.iter (Z.to_nat ms) tick w0) = trace w0) as Hticks.
  { intros ms w0. induction (Z.to_nat ms) as [| n IH]; [repeat split |].
    cbn [Nat.iter tick gamepad script trace]. exact IH. }
  destruct sleeps; cbn [when negb delay emit ret fst snd log gamepad script trace].
  - destruct (Hticks (to_ulong (POLL_INTERVAL_MS - duration))
               (log (DigitalWrite LED_BUILTIN false)
                    (log (UsbReport (gamepad w)) w))) as (Hg & Hs & Ht).
    rewrite Hg, Hs, Ht. cbn [log gamepad script trace].
    rewrite <- !app_assoc. repeat split; reflexivity.
  - rewrite <- !app_assoc. repeat split; reflexivity.
Qed.

Lemma unpack_store got buffer :
  length got = 6%nat -> unpack (store got buffer) = unpack got.
Proof.
  intros Hlen. unfold unpack, store.
  rewrite !app_nth1 by lia. reflexivity.
Qed.

Lemma script_read address len k w :
  script (Wire.readBytes len (waited k (requested address len w))).2 =
  tl (script w).
Proof. cbn [Wire.readBytes snd script]. rewrite waited_eq. reflexivity. Qed.

Lemma gamepad_read address len k w :
  gamepad (Wire.readBytes len (waited k (requested address len w))).2 =
  gamepad w.
Proof. cbn [Wire.readBytes snd gamepad]. rewrite waited_eq. reflexivity. Qed.

Lemma usb_output_read address len k w :
  usb_output (trace (Wire.readBytes len (waited k (requested address len w))).2) =
  usb_output (trace w).
Proof.
  rewrite trace_readBytes, trace_waited, trace_requested.
  rewrite !usb_output_app, usb_output_delays.
  cbn [usb_output omap]. rewrite !app_nil_r. reflexivity.
Qed.

(** A round whose pointer write is refused: nothing is decoded. *)
Lemma loop_fail stack w :
  ack (hd absent (script w)) <> 0 ->
  loop stack w = pace (now w) (sent DATA_ADDRESS w).
Proof.
  intros Hack. rewrite loop_unfold. unfold bind at 1.
  rewrite i2cRead_fail by exact Hack. cbn [fst snd].
  destruct (Z.eqb_spec (ack (hd absent (script w))) 0); [contradiction |].
  reflexivity.
Qed.

(** A round whose read succeeds: the report is rebuilt from the six
    bytes of the answer. *)
Lemma loop_ok stack w :
  ack (hd absent (script w)) = 0 ->
  DATA_LEN <= Z.of_nat (length (concat (reply (hd absent (script w))))) ->
  exists k v,
    getDpadValue
      (unpack (take 6 (concat (reply (hd absent (script w)))))) = Some v /\
    loop stack w =
    pace (now w)
      (with_gamepad
         (decoded (unpack (take 6 (concat (reply (hd absent (script w)))))) v)
         (Wire.readBytes DATA_LEN
            (waited k (requested DATA_ADDRESS DATA_LEN w))).2).
Proof.
  intros Hack Hlen.
  destruct (i2cRead_ok DATA_ADDRESS DATA_LEN stack w Hack)
    as (k & Hrun & _); [unfold DATA_LEN in *; lia |].
  set (got := take 6 (concat (reply (hd absent (script w))))).
  destruct (getDpadValue_defined (unpack got)) as (v & Hv & _).
  exists k, v. split; [exact Hv |].
  rewrite loop_unfold. unfold bind at 1. rewrite Hrun. cbn [fst snd Z.eqb].
  change (take (Z.to_nat DATA_LEN) (concat (reply (hd absent (script w)))))
    with got.
  rewrite unpack_store.
  - unfold bind. rewrite (updateGamepad_decoded _ v) by exact Hv. reflexivity.
  - unfold got. rewrite length_take. unfold DATA_LEN in Hlen. lia.
Qed.

Lemma getControllerData_eq data w :
  getControllerData data w = i2cRead DATA_ADDRESS DATA_LEN data w.
Proof.
  unfold getControllerData, bind.
  destruct (i2cRead DATA_ADDRESS DATA_LEN data w) as [[f | r] w']; reflexivity.
Qed.

(** Every round opens with the write of the report address. *)
Lemma loop_starts_with_read stack w :
  exists t,
    trace (loop stack w).2 =
    trace w ++
    Transmission [DATA_ADDRESS] (ack (hd absent (script w))) :: t.
Proof.
  destruct (Z.eq_dec (ack (hd absent (script w))) 0) as [Hack | Hack].
  - destruct (Z_lt_le_dec
                (Z.of_nat (length (concat (reply (hd absent (script w))))))
                DATA_LEN) as [Hshort | Hlen].
    + rewrite loop_unfold. unfold bind at 1.
      rewrite i2cRead_blocked by assumption. cbn [snd].
      rewrite trace_waited, trace_requested, <- app_assoc.
      eexists. reflexivity.
    + destruct (loop_ok stack w Hack Hlen) as (k & v & _ & ->).
      destruct (pace_run (now w)
        (with_gamepad
           (decoded (unpack (take 6 (concat (reply (hd absent (script w)))))) v)
           (Wire.readBytes DATA_LEN
              (waited k (requested DATA_ADDRESS DATA_LEN w))).2))
        as (_ & _ & _ & ->).
      change (trace (with_gamepad ?g ?w0)) with (trace w0).
      rewrite trace_readBytes, trace_waited, trace_requested, <- !app_assoc.
      eexists. reflexivity.
  - rewrite loop_fail by exact Hack.
    destruct (pace_run (now w) (sent DATA_ADDRESS w)) as (_ & _ & _ & ->).
    rewrite trace_sent, <- !app_assoc. eexists. reflexivity.
Qed.

(** C1, as the code has it: a round whose read of the report returns a
    nonzero status decodes nothing and leaves the gamepad report as it was,
    yet still sends one report, the unchanged one; the round ends after the
    poll interval and the next round again opens with the write of the
    report address. *)
Theorem failed_poll_resends_report (stack : list Z) (w : World) :
  ack (hd absent (script w)) <> 0 ->
  let status := ack (hd absent (script w)) in
  let r := loop stack w in
  (getControllerData stack w).1 = inr (status, stack) /\
  r.1 = inr tt /\
  gamepad r.2 = gamepad w /\
  trace r.2 =
    trace w ++ [ Transmission [DATA_ADDRESS] status; UsbReport (gamepad w);
                 DigitalWrite LED_BUILTIN false; Delay POLL_INTERVAL_MS ] /\
  usb_output (trace r.2) = usb_output (trace w) ++ [gamepad w] /\
  exists t,
    trace (loop stack r.2).2 =
    trace r.2 ++
    Transmission [DATA_ADDRESS] (ack (hd absent (script r.2))) :: t.
Proof.
  intros Hack status r.
  split.
  { rewrite getControllerData_eq, i2cRead_fail by exact Hack. reflexivity. }
  assert (trace r.2 =
    trace w ++ [ Transmission [DATA_ADDRESS] status; UsbReport (gamepad w);
                 DigitalWrite LED_BUILTIN false; Delay POLL_INTERVAL_MS ])
    as Htrace.
  { unfold r. rewrite loop_fail by exact Hack.
    destruct (pace_run (now w) (sent DATA_ADDRESS w)) as (_ & _ & _ & ->).
    change (now (sent DATA_ADDRESS w)) with (now w).
    rewrite Z.sub_diag. rewrite trace_sent, <- app_assoc. reflexivity. }
  destruct (pace_run (now w) (sent DATA_ADDRESS w)) as (Hdone & Hpad & _ & _).
  rewrite <- (loop_fail stack w Hack) in Hdone, Hpad. fold r in Hdone, Hpad.
  repeat split.
  - exact Hdone.
  - exact Hpad.
  - exact Htrace.
  - rewrite Htrace, usb_output_app. reflexivity.
  - apply loop_starts_with_read.
Qed.

Lemma failed_poll_resends_report_witness :
  trace (loop [] (boot [refused; answers report_idle])).2 =
  [ Transmission [DATA_ADDRESS] 2; UsbReport zero_report;
    DigitalWrite LED_BUILTIN false; Delay POLL_INTERVAL_MS ].
Proof.
  refine (proj1 (proj2 (proj2 (proj2
    (failed_poll_resends_report [] (boot [refused; answers report_idle]) _))))).
  cbn. lia.
Defined.

(** C1, as the specification states it, does not hold: after a poll that
    showed all buttons held, a poll whose read returns status 2 still
    hands a report to the USB writer, the old one with its eleven
    buttons. *)
Lemma failed_poll_still_reports :
  let w := (sketch [] 1
              (boot [acked; acked; answers VALID_ID_1;
                     answers report_all_buttons; refused])).2 in
  (getControllerData [] w).1 = inr (2, []) /\
  pressed_buttons (gamepad w) = all_buttons /\
  usb_output (trace (loop [] w).2) = usb_output (trace w) ++ [gamepad w] /\
  usb_output (trace (loop [] w).2) <> usb_output (trace w).
Proof.
  vm_compute. repeat split; discriminate.
Qed.

Lemma pressed_buttons_none g :
  (forall b, pressed b g = false) -> pressed_buttons g = [].
Proof.
  intros H. unfold pressed_buttons, all_buttons.
  repeat (rewrite filter_cons_False by (rewrite H; discriminate)).
  reflexivity.
Qed.

Lemma pressed_buttons_all g :
  (forall b, pressed b g = true) -> pressed_buttons g = all_buttons.
Proof.
  intros H. unfold pressed_buttons, all_buttons.
  repeat (rewrite filter_cons_True by apply H).
  reflexivity.
Qed.

(** What a round with a good read leaves behind. *)
Lemma loop_ok_facts stack w :
  ack (hd absent (script w)) = 0 ->
  DATA_LEN <= Z.of_nat (length (concat (reply (hd absent (script w))))) ->
  (loop stack w).1 = inr tt /\
  script (loop stack w).2 = tl (script w) /\
  usb_output (trace (loop stack w).2) =
    usb_output (trace w) ++ [gamepad (loop stack w).2] /\
  exists v,
    getDpadValue
      (unpack (take 6 (concat (reply (hd absent (script w)))))) = Some v /\
    gamepad (loop stack w).2 =
    decoded (unpack (take 6 (concat (reply (hd absent (script w)))))) v.
Proof.
  intros Hack Hlen.
  destruct (loop_ok stack w Hack Hlen) as (k & v & Hv & ->).
  match goal with
  | |- context [pace ?s ?w0] =>
      destruct (pace_run s w0) as (Hdone & Hpad & Hscript & Htrace)
  end.
  rewrite Hdone, Hpad, Hscript, Htrace.
  change (gamepad (with_gamepad ?g ?w0)) with g.
  change (script (with_gamepad ?g ?w0)) with (script w0).
  change (trace (with_gamepad ?g ?w0)) with (trace w0).
  rewrite script_read.
  repeat split.
  - rewrite !usb_output_app, usb_output_read.
    match goal with |- context [if ?c then _ else _] => destruct c end;
      reflexivity.
  - exists v. split; [exact Hv | reflexivity].
Qed.

(** C6: a good poll rebuilds the buttons from the report alone, whatever
    the gamepad held before: a button is down after the round exactly when
    its field is 0, and no other bit of the button mask is set.  So of two
    good polls in a row, the first with nothing held and the second with
    all eleven buttons held, the first report sent shows no button and the
    second shows all eleven. *)
Theorem release_all_then_assert
    (stack : list Z) (w : World) (x1 x2 : Exchange) (rest : list Exchange) :
  script w = x1 :: x2 :: rest ->
  ack x1 = 0 -> DATA_LEN <= Z.of_nat (length (concat (reply x1))) ->
  ack x2 = 0 -> DATA_LEN <= Z.of_nat (length (concat (reply x2))) ->
  let d1 := unpack (take 6 (concat (reply x1))) in
  let d2 := unpack (take 6 (concat (reply x2))) in
  let r1 := loop stack w in
  let r2 := loop stack r1.2 in
  r1.1 = inr tt /\ r2.1 = inr tt /\
  usb_output (trace r2.2) =
    usb_output (trace w) ++ [gamepad r1.2; gamepad r2.2] /\
  (forall b, pressed b (gamepad r1.2) = (button_field b d1 =? 0)) /\
  button_bits_only (gamepad r1.2) /\
  (forall b, pressed b (gamepad r2.2) = (button_field b d2 =? 0)) /\
  button_bits_only (gamepad r2.2) /\
  ((forall b, button_field b d1 <> 0) ->
   (forall b, button_field b d2 = 0) ->
   pressed_buttons (gamepad r1.2) = [] /\
   pressed_buttons (gamepad r2.2) = all_buttons).
Proof.
  intros Hscript Hack1 Hlen1 Hack2 Hlen2 d1 d2 r1 r2.
  destruct (loop_ok_facts stack w) as (Hdone1 & Hs1 & Hout1 & v1 & _ & Hg1).
  { rewrite Hscript. exact Hack1. }
  { rewrite Hscript. exact Hlen1. }
  rewrite Hscript in Hs1, Hg1. cbn [hd tl] in Hs1, Hg1.
  fold r1 in Hdone1, Hs1, Hout1, Hg1. fold d1 in Hg1.
  destruct (loop_ok_facts stack r1.2) as (Hdone2 & _ & Hout2 & v2 & _ & Hg2).
  { rewrite Hs1. exact Hack2. }
  { rewrite Hs1. exact Hlen2. }
  rewrite Hs1 in Hg2. cbn [hd] in Hg2.
  fold r2 in Hdone2, Hout2, Hg2. fold d2 in Hg2.
  assert (forall b, pressed b (gamepad r1.2) = (button_field b d1 =? 0)) as Hp1.
  { intros b. rewrite Hg1. apply decoded_pressed. }
  assert (forall b, pressed b (gamepad r2.2) = (button_field b d2 =? 0)) as Hp2.
  { intros b. rewrite Hg2. apply decoded_pressed. }
  split; [exact Hdone1 |]. split; [exact Hdone2 |].
  split; [rewrite Hout2, Hout1, <- app_assoc; reflexivity |].
  split; [exact Hp1 |].
  split; [rewrite Hg1; apply decoded_bits_only |].
  split; [exact Hp2 |].
  split; [rewrite Hg2; apply decoded_bits_only |].
  intros Hnone Hall. split.
  - apply pressed_buttons_none. intros b. rewrite Hp1.
    apply Z.eqb_neq, Hnone.
  - apply pressed_buttons_all. intros b. rewrite Hp2.
    apply Z.eqb_eq, Hall.
Qed.

Lemma release_all_then_assert_witness :
  let r1 := loop [] (boot [answers report_idle; answers report_all_buttons]) in
  let r2 := loop [] r1.2 in
  usb_output (trace r2.2) = [gamepad r1.2; gamepad r2.2] /\
  pressed_buttons (gamepad r1.2) = [] /\
  pressed_buttons (gamepad r2.2) = all_buttons.
Proof.
  pose proof (release_all_then_assert []
    (boot [answers report_idle; answers report_all_buttons])
    (answers report_idle) (answers report_all_buttons) []) as H.
  cbv zeta in H.
  destruct H as (_ & _ & Hout & _ & _ & _ & _ & Hshown);
    [ reflexivity | reflexivity | vm_compute; discriminate
    | reflexivity | vm_compute; discriminate |].
  split; [exact Hout |].
  apply Hshown; intros b; destruct b; vm_compute; (reflexivity || discriminate).
Defined.

(** ** The table lookup *)

Lemma loop_never_out_of_bounds stack w : (loop stack w).1 <> inl OutOfBounds.
Proof.
  destruct (Z.eq_dec (ack (hd absent (script w))) 0) as [Hack | Hack].
  - destruct (Z_lt_le_dec
                (Z.of_nat (length (concat (reply (hd absent (script w))))))
                DATA_LEN) as [Hshort | Hlen].
    + rewrite loop_unfold. unfold bind at 1.
      rewrite i2cRead_blocked by assumption. discriminate.
    + destruct (loop_ok_facts stack w Hack Hlen) as (-> & _). discriminate.
  - rewrite loop_fail by exact Hack.
    destruct (pace_run (now w) (sent DATA_ADDRESS w)) as (-> & _).
    discriminate.
Qed.

(** C10: the dpad index lies between 0 and 15 whatever the report, the
    table has 16 entries, so the lookup is within the table and the dpad
    value is defined: [updateGamepad] always comes back, and no round of
    the main loop ends on a read outside the table. *)
Theorem dpad_lookup_in_bounds (d : ControllerData) :
  0 <= dpad_index d <= 15 /\
  length DPAD_MAPPINGS = 16%nat /\
  (Z.to_nat (dpad_index d) < length DPAD_MAPPINGS)%nat /\
  is_Some (DPAD_MAPPINGS !! Z.to_nat (dpad_index d)) /\
  is_Some (getDpadValue d) /\
  (forall w, (updateGamepad d w).1 = inr tt) /\
  (forall stack w, (loop stack w).1 <> inl OutOfBounds).
Proof.
  pose proof (dpad_index_range d) as Hr.
  split; [exact Hr |].
  split; [reflexivity |].
  assert (Z.to_nat (dpad_index d) < length DPAD_MAPPINGS)%nat as Hlt.
  { change (length DPAD_MAPPINGS) with 16%nat. lia. }
  split; [exact Hlt |].
  split; [apply lookup_lt_is_Some; exact Hlt |].
  split.
  { destruct (getDpadValue_defined d) as (v & Hv & _). exists v. exact Hv. }
  split.
  - intros w. destruct (updateGamepad_run d) as (g & Hrun & _).
    rewrite Hrun. reflexivity.
  - apply loop_never_out_of_bounds.
Qed.

(** ** The identification bytes *)

Lemma sim_refl w : sim w w.
Proof. split; reflexivity. Qed.

Lemma sim_log e w1 w2 : sim w1 w2 -> sim (log e w1) (log e w2).
Proof.
  intros [Hs Hn Hg Ht]. split; cbn [log script now gamepad trace];
    congruence.
Qed.

Lemma sim_tick w1 w2 : sim w1 w2 -> sim (tick w1) (tick w2).
Proof.
  intros [Hs Hn Hg Ht]. split; cbn [tick script now gamepad trace];
    congruence.
Qed.

Lemma sim_ticks n w1 w2 :
  sim w1 w2 -> sim (Nat.iter n tick w1) (Nat.iter n tick w2).
Proof.
  intros H. induction n as [| n IH]; [exact H |].
  cbn [Nat.iter]. apply sim_tick, IH.
Qed.

Lemma sim_with_gamepad g w1 w2 :
  sim w1 w2 -> sim (with_gamepad g w1) (with_gamepad g w2).
Proof.
  intros [Hs Hn Hg Ht]. split; cbn [with_gamepad script now gamepad trace];
    congruence.
Qed.

Lemma respects_ret {A} (a : A) : respects (ret a).
Proof. intros w1 w2 H. split; [reflexivity | exact H]. Qed.

Lemma respects_bind {A B} (m : M A) (k : A -> M B) :
  respects m -> (forall a, respects (k a)) -> respects (x <- m ;; k x).
Proof.
  intros Hm Hk w1 w2 H. unfold bind.
  destruct (Hm w1 w2 H) as [Hval Hsim].
  destruct (m w1) as [[f1 | a1] w1'], (m w2) as [[f2 | a2] w2'];
    cbn [fst snd] in Hval, Hsim; try discriminate.
  - injection Hval as ->. split; [reflexivity | exact Hsim].
  - injection Hval as ->. apply Hk, Hsim.
Qed.

Lemma respects_emit e : respects (emit e).
Proof. intros w1 w2 H. split; [reflexivity | apply sim_log, H]. Qed.

Lemma respects_delay ms : respects (delay ms).
Proof.
  intros w1 w2 H. split; [reflexivity |].
  unfold delay, emit. cbn [snd]. apply sim_log, sim_ticks, H.
Qed.

Lemma respects_millis : respects millis.
Proof.
  intros w1 w2 H. split; [| exact H].
  cbn [millis fst]. f_equal. apply H.
Qed.

Lemma respects_write : respects Gamepad.write.
Proof.
  intros w1 w2 H. unfold Gamepad.write, emit. cbn [fst snd].
  split; [reflexivity |]. rewrite (sim_gamepad _ _ H). apply sim_log, H.
Qed.

Lemma respects_when c m : respects m -> respects (when c m).
Proof. intros H. destruct c; [exact H | apply respects_ret]. Qed.

Lemma respects_pace start : respects (pace start).
Proof.
  unfold pace. cbv zeta.
  apply respects_bind; [apply respects_write | intros _].
  apply respects_bind; [apply respects_millis | intros t].
  apply respects_bind; [apply respects_emit | intros _].
  apply respects_when, respects_delay.
Qed.

Lemma respects_updateGamepad d : respects (updateGamepad d).
Proof.
  intros w1 w2 H.
  destruct (updateGamepad_run d) as (g & Hrun & _).
  rewrite !Hrun. split; [reflexivity | apply sim_with_gamepad, H].
Qed.

Lemma sim_sent address w1 w2 : sim w1 w2 -> sim (sent address w1) (sent address w2).
Proof.
  intros [Hs Hn Hg Ht]. unfold sent.
  split; cbn [Wire.transmit snd script now gamepad trace]; congruence.
Qed.

(** From the request on, nothing is left of what set such worlds apart. *)
Lemma requested_sim address len w1 w2 :
  sim w1 w2 -> requested address len w1 = requested address len w2.
Proof.
  intros [Hs Hn Hg Ht]. unfold requested, sent.
  cbn [Wire.requestFrom Wire.transmit snd log tick script armed rx pending
       now gamepad trace].
  rewrite Hs, Hn, Hg, Ht. reflexivity.
Qed.

Lemma respects_i2cRead address len result : respects (i2cRead address len result).
Proof.
  intros w1 w2 H. rewrite !i2cRead_unfold.
  rewrite (requested_sim address len w1 w2 H), (sim_script _ _ H).
  destruct (negb (ack (hd absent (script w2)) =? 0)).
  - split; [reflexivity | apply sim_sent, H].
  - split; [reflexivity | apply sim_refl].
Qed.

Lemma respects_loop stack : respects (loop stack).
Proof.
  intros w1 w2 H. rewrite !loop_unfold. rewrite (sim_now _ _ H).
  match goal with
  | |- (?m w1).1 = _ /\ _ => assert (respects m) as Hbody
  end.
  { apply respects_bind; [apply respects_i2cRead | intros r].
    apply respects_bind; [| intros _; apply respects_pace].
    destruct (r.1 =? 0); [apply respects_updateGamepad | apply respects_ret]. }
  exact (Hbody w1 w2 H).
Qed.

Lemma respects_cycles stack n : respects (cycles stack n).
Proof.
  induction n as [| n IH]; [apply respects_ret |].
  cbn [cycles]. apply respects_bind; [apply respects_loop | intros _; exact IH].
Qed.

Lemma shape_take_length (c1 c2 : list (list Z)) n :
  map length c1 = map length c2 ->
  length (concat (take n c1)) = length (concat (take n c2)).
Proof.
  revert c2 n. induction c1 as [| a c1 IH]; intros [| b c2] n Hshape;
    try discriminate.
  - reflexivity.
  - cbn [map] in Hshape. injection Hshape as Hab Hrest.
    destruct n as [| n]; [reflexivity |].
    cbn [take concat]. rewrite !length_app, Hab, (IH c2 n Hrest). reflexivity.
Qed.

Lemma shape_arrived (c1 c2 : list (list Z)) j :
  map length c1 = map length c2 ->
  length (arrived c1 j) = length (arrived c2 j).
Proof. apply shape_take_length. Qed.

Lemma shape_concat (c1 c2 : list (list Z)) :
  map length c1 = map length c2 ->
  length (concat c1) = length (concat c2).
Proof.
  intros H. rewrite <- (arrived_all c1 (length c1)), <- (arrived_all c2 (length c1)).
  - apply shape_arrived, H.
  - apply (f_equal length) in H. rewrite !length_map in H. lia.
  - lia.
Qed.

Lemma sim_waited k w1 w2 : sim w1 w2 -> sim (waited k w1) (waited k w2).
Proof.
  intros [Hs Hn Hg Ht]. rewrite !waited_eq.
  split; cbn [script now gamepad trace]; congruence.
Qed.

Lemma sim_readBytes len w1 w2 :
  sim w1 w2 -> length (rx w1) = length (rx w2) ->
  sim (Wire.readBytes len w1).2 (Wire.readBytes len w2).2.
Proof.
  intros [Hs Hn Hg Ht] Hrx.
  split; cbn [Wire.readBytes snd script now gamepad trace]; try congruence.
  rewrite !length_take, Hrx, Ht. reflexivity.
Qed.

Lemma sim_requested address len w1 w2 :
  same_but_answer w1 w2 ->
  sim (requested address len w1) (requested address len w2).
Proof.
  intros [Ha _ Hs Hn Hg Ht]. unfold requested, sent.
  split; cbn [Wire.requestFrom Wire.transmit snd log tick script now gamepad
              trace]; congruence.
Qed.

(** Waiting goes the same way for two answers of the same shape. *)
Lemma wait_available_shape len p w1 w2 :
  sim w1 w2 ->
  length (rx w1) = length (rx w2) ->
  map length (pending w1) = map length (pending w2) ->
  (wait_available p len w1).1 = (wait_available p len w2).1 /\
  sim (wait_available p len w1).2 (wait_available p len w2).2 /\
  length (rx (wait_available p len w1).2) =
  length (rx (wait_available p len w2).2).
Proof.
  revert w1 w2. induction p as [| p IH]; intros w1 w2 Hsim Hrx Hshape;
    cbn [wait_available bind Wire.available]; rewrite Hrx;
    destruct (Z.of_nat (length (rx w2)) <? len);
    try (repeat split; (apply Hsim || exact Hrx || reflexivity)).
  change ((delay 1 ;; wait_available p len) ?w)
    with (wait_available p len (log (Delay 1) (tick w))).
  apply IH.
  - apply sim_log, sim_tick, Hsim.
  - cbn [log tick rx]. rewrite !length_app, Hrx. f_equal.
    destruct (pending w1), (pending w2); try discriminate; [reflexivity |].
    cbn [map hd] in *. congruence.
  - cbn [log tick pending].
    destruct (pending w1), (pending w2); try discriminate; [reflexivity |].
    cbn [map tl] in *. congruence.
Qed.

Lemma read_tail len result w :
  (got <- (wait_for len ;; Wire.readBytes len) ;; ret (0, store got result)) w =
  match wait_for len w with
  | (inl f, w') => (inl f, w')
  | (inr _, w') =>
      (inr (0, store (take (Z.to_nat len) (rx w')) result),
       (Wire.readBytes len w').2)
  end.
Proof. unfold bind. destruct (wait_for len w) as [[f | []] w']; reflexivity. Qed.

Lemma getControllerId_unfold stack w :
  getControllerId stack w =
  if negb (ack (hd absent (script w)) =? 0)
  then (inr tt, sent ID_ADDRESS w)
  else match wait_for ID_LEN (requested ID_ADDRESS ID_LEN w) with
       | (inl f, w') => (inl f, w')
       | (inr _, w') => (inr tt, (Wire.readBytes ID_LEN w').2)
       end.
Proof.
  unfold getControllerId. cbv zeta. unfold bind at 1.
  rewrite i2cRead_unfold.
  destruct (negb (ack (hd absent (script w)) =? 0)); [reflexivity |].
  rewrite read_tail.
  destruct (wait_for ID_LEN (requested ID_ADDRESS ID_LEN w)) as [[f | []] w'];
    reflexivity.
Qed.

(** Reading the identification ends the same way and leaves worlds alike,
    whatever bytes the answer holds. *)
Lemma getControllerId_shape stack w1 w2 :
  same_but_answer w1 w2 ->
  (getControllerId stack w1).1 = (getControllerId stack w2).1 /\
  sim (getControllerId stack w1).2 (getControllerId stack w2).2.
Proof.
  intros H. rewrite !getControllerId_unfold, (sba_ack _ _ H).
  destruct (negb (ack (hd absent (script w2)) =? 0)).
  - cbn [ret fst snd]. split; [reflexivity |].
    destruct H as [Ha _ Hs Hn Hg Ht]. unfold sent.
    split; cbn [Wire.transmit snd script now gamepad trace]; congruence.
  - destruct (wait_available_shape ID_LEN
                (length (pending (requested ID_ADDRESS ID_LEN w1)))
                (requested ID_ADDRESS ID_LEN w1)
                (requested ID_ADDRESS ID_LEN w2))
      as (Hval & Hsim & Hrx).
    + apply sim_requested, H.
    + unfold requested.
      cbn [Wire.requestFrom snd rx armed log tick sent Wire.transmit].
      pose proof (sba_shape _ _ H) as Hshape.
      destruct (reply (hd absent (script w1))), (reply (hd absent (script w2)));
        try discriminate; [reflexivity |].
      cbn [map hd] in *. congruence.
    + unfold requested.
      cbn [Wire.requestFrom snd pending armed log tick sent Wire.transmit].
      pose proof (sba_shape _ _ H) as Hshape.
      destruct (reply (hd absent (script w1))), (reply (hd absent (script w2)));
        try discriminate; [reflexivity |].
      cbn [map tl] in *. congruence.
    + assert (length (pending (requested ID_ADDRESS ID_LEN w1)) =
              length (pending (requested ID_ADDRESS ID_LEN w2))) as Hp.
      { unfold requested.
        cbn [Wire.requestFrom snd pending armed log tick sent Wire.transmit].
        pose proof (sba_shape _ _ H) as Hshape.
        apply (f_equal length) in Hshape. rewrite !length_map in Hshape.
        destruct (reply (hd absent (script w1))),
          (reply (hd absent (script w2))); cbn in *; congruence. }
      unfold wait_for. rewrite <- Hp.
      destruct (wait_available _ ID_LEN (requested ID_ADDRESS ID_LEN w1))
        as [[f1 | []] w1'],
        (wait_available _ ID_LEN (requested ID_ADDRESS ID_LEN w2))
        as [[f2 | []] w2']; cbn [fst snd] in *; try discriminate.
      * split; [congruence | exact Hsim].
      * split; [reflexivity |]. apply sim_readBytes; assumption.
Qed.

Lemma setup_prepared stack x1 x2 s :
  setup stack (boot (x1 :: x2 :: s)) = getControllerId stack (prepared x1 x2 s).
Proof. reflexivity. Qed.

Lemma sketch_unfold stack n w :
  sketch stack n w =
  match setup stack w with
  | (inl f, w') => (inl f, w')
  | (inr _, w') => cycles stack n w'
  end.
Proof. reflexivity. Qed.

(** [setup] comes back when the identification read is refused or its
    six bytes arrive. *)
Lemma setup_returns stack x1 x2 id rest :
  ack id <> 0 \/ ID_LEN <= Z.of_nat (length (concat (reply id))) ->
  (setup stack (boot (x1 :: x2 :: id :: rest))).1 = inr tt.
Proof.
  intros Hid. rewrite setup_prepared. unfold getControllerId. cbv zeta.
  unfold bind.
  destruct (Z.eq_dec (ack id) 0) as [Hack | Hack].
  - destruct Hid as [Hid | Hid]; [contradiction |].
    destruct (i2cRead_ok ID_ADDRESS ID_LEN stack (prepared x1 x2 (id :: rest)))
      as (k & -> & _); [exact Hack | cbn [prepared script hd]; unfold ID_LEN in *; lia |].
    reflexivity.
  - rewrite i2cRead_fail by exact Hack. reflexivity.
Qed.

(** C9: two runs that differ only in the bytes of the identification
    answer (same status, same number of bytes at the same moments) end
    the same way, with the same trace of actions and so the same reports
    sent, and the same report held, after any number of polls; and when
    the identification read is refused or its six bytes arrive, both runs
    leave [setup] and poll. *)
Theorem identification_is_not_used
    (stack : list Z) (n : nat) (x1 x2 id1 id2 : Exchange)
    (rest : list Exchange) :
  ack id1 = ack id2 ->
  map length (reply id1) = map length (reply id2) ->
  let run1 := sketch stack n (boot (x1 :: x2 :: id1 :: rest)) in
  let run2 := sketch stack n (boot (x1 :: x2 :: id2 :: rest)) in
  run1.1 = run2.1 /\
  trace run1.2 = trace run2.2 /\
  usb_output (trace run1.2) = usb_output (trace run2.2) /\
  gamepad run1.2 = gamepad run2.2 /\
  (ack id1 <> 0 \/ ID_LEN <= Z.of_nat (length (concat (reply id1))) ->
   (setup stack (boot (x1 :: x2 :: id1 :: rest))).1 = inr tt /\
   (setup stack (boot (x1 :: x2 :: id2 :: rest))).1 = inr tt).
Proof.
  intros Hack Hshape run1 run2.
  assert (run1.1 = run2.1 /\ sim run1.2 run2.2) as [Hval Hsim].
  { unfold run1, run2. rewrite !sketch_unfold, !setup_prepared.
    destruct (getControllerId_shape stack
                (prepared x1 x2 (id1 :: rest)) (prepared x1 x2 (id2 :: rest)))
      as [Hid Hsim].
    { split; cbn [prepared script hd tl now gamepad trace];
        (assumption || reflexivity). }
    destruct (getControllerId stack (prepared x1 x2 (id1 :: rest)))
      as [[f1 | []] w1],
      (getControllerId stack (prepared x1 x2 (id2 :: rest)))
      as [[f2 | []] w2]; cbn [fst snd] in Hid, Hsim; try discriminate.
    - split; [cbn [fst]; congruence | exact Hsim].
    - apply respects_cycles, Hsim. }
  split; [exact Hval |].
  split; [apply Hsim |].
  split; [rewrite (sim_trace _ _ Hsim); reflexivity |].
  split; [apply Hsim |].
  intros Hid. split; apply setup_returns.
  - exact Hid.
  - rewrite <- Hack, <- (shape_concat _ _ Hshape). exact Hid.
Qed.

Lemma identification_is_not_used_witness :
  let polls := [answers report_idle; refused; answers report_all_buttons] in
  let run1 := sketch [] 3 (boot (acked :: acked :: answers VALID_ID_1 :: polls)) in
  let run2 := sketch [] 3 (boot (acked :: acked :: answers VALID_ID_2 :: polls)) in
  run1.1 = inr tt /\
  usb_output (trace run1.2) = usb_output (trace run2.2) /\
  length (usb_output (trace run1.2)) = 4%nat.
Proof.
  pose proof (identification_is_not_used [] 3 acked acked
    (answers VALID_ID_1) (answers VALID_ID_2)
    [answers report_idle; refused; answers report_all_buttons]) as H.
  cbv zeta in H.
  destruct H as (_ & _ & Hout & _); [reflexivity | reflexivity |].
  split; [reflexivity |]. split; [exact Hout | reflexivity].
Defined.

(** * Further properties of the sketch *)

(** ** The report layout *)








(** ** The directional pad, for states a pad can be in *)

(** X2: among the states a dpad can really be in (never up with down,
    never left with right) the table loses nothing: two reports get the
    same dpad value exactly when they show the same dpad buttons held. *)
Theorem dpad_faithful_when_possible (d1 d2 : ControllerData) :
  dpad_possible d1 -> dpad_possible d2 ->
  (getDpadValue d1 = getDpadValue d2 <-> dpad_held d1 = dpad_held d2).
Proof.
  unfold dpad_possible, dpad_held, getDpadValue, dpad_index.
  destruct (button_left d1 =? 0), (button_up d1 =? 0),
    (button_right d1 =? 0), (button_down d1 =? 0);
    cbn [andb]; intros [H1 H1']; try discriminate;
    destruct (button_left d2 =? 0), (button_up d2 =? 0),
      (button_right d2 =? 0), (button_down d2 =? 0);
    cbn [andb]; intros [H2 H2']; try discriminate;
    (split; intros H; first [reflexivity | discriminate H]).
Qed.

Lemma dpad_faithful_when_possible_witness :
  getDpadValue (unpack report_idle) = getDpadValue (unpack report_all_buttons).
Proof.
  apply (dpad_faithful_when_possible
           (unpack report_idle) (unpack report_all_buttons));
    [split; reflexivity | split; reflexivity | reflexivity].
Defined.

(** ** The axes *)

(** X3: the ranges of the axes.  The left stick axes lie between -32768
    and 31744, the right stick axes between -32768 and 30720, the trigger
    axes between 0 and 124; a stick axis is 0 exactly at the middle value
    of its field (32, 16) and a trigger axis exactly at 0. *)
Theorem axes_ranges (d : ControllerData) (w : World) :
  well_formed d ->
  let g := gamepad (updateGamepad d w).2 in
  (-32768 <= report_xAxis g <= 31744 /\
   (report_xAxis g = 0 <-> left_stick_x d = 32)) /\
  (-32768 <= report_yAxis g <= 31744 /\
   (report_yAxis g = 0 <-> left_stick_y d = 32)) /\
  (-32768 <= report_rxAxis g <= 30720 /\
   (report_rxAxis g = 0 <-> getRightStickX d = 16)) /\
  (-32768 <= report_ryAxis g <= 30720 /\
   (report_ryAxis g = 0 <-> right_stick_y d = 16)) /\
  (0 <= report_zAxis g <= 124 /\
   (report_zAxis g = 0 <-> getLeftTrigger d = 0)) /\
  (0 <= report_rzAxis g <= 124 /\
   (report_rzAxis g = 0 <-> right_trigger d = 0)).
Proof.
  intros Hwf g.
  destruct (updateGamepad_run d)
    as (g' & Hrun & _ & _ & Hx & Hy & Hrx & Hry & Hz & Hrz & _).
  unfold g. rewrite Hrun. cbn [snd gamepad with_gamepad].
  rewrite Hx, Hy, Hrx, Hry, Hz, Hrz.
  pose proof (getRightStickX_fits d Hwf) as Frx.
  pose proof (getLeftTrigger_fits d Hwf) as Flt.
  pose proof (wf_left_stick_x d Hwf) as Fx.
  pose proof (wf_left_stick_y d Hwf) as Fy.
  pose proof (wf_right_stick_y d Hwf) as Fry.
  pose proof (wf_right_trigger d Hwf) as Frt.
  rewrite !stick6_scaled, !stick5_scaled, !trigger_scaled by assumption.
  rewrite !Z.shiftl_mul_pow2 by lia.
  change (2 ^ 10) with 1024. change (2 ^ 11) with 2048. change (2 ^ 2) with 4.
  unfold fits in *. repeat split; lia.
Qed.

Lemma axes_ranges_witness :
  report_xAxis (gamepad (updateGamepad (unpack report_idle) (boot [])).2) = 0.
Proof.
  refine (proj2 (proj2 (proj1
    (axes_ranges (unpack report_idle) (boot []) _))) _);
    [ constructor; vm_compute; (split; [discriminate | reflexivity])
    | reflexivity ].
Defined.

(** X4: every axis grows with its value: of two reports, the one with
    the larger stick or trigger value gets the larger axis. *)
Theorem axes_monotone (d1 d2 : ControllerData) (w1 w2 : World) :
  well_formed d1 -> well_formed d2 ->
  let g1 := gamepad (updateGamepad d1 w1).2 in
  let g2 := gamepad (updateGamepad d2 w2).2 in
  (left_stick_x d1 < left_stick_x d2 <-> report_xAxis g1 < report_xAxis g2) /\
  (left_stick_y d1 < left_stick_y d2 <-> report_yAxis g1 < report_yAxis g2) /\
  (getRightStickX d1 < getRightStickX d2 <->
   report_rxAxis g1 < report_rxAxis g2) /\
  (right_stick_y d1 < right_stick_y d2 <->
   report_ryAxis g1 < report_ryAxis g2) /\
  (getLeftTrigger d1 < getLeftTrigger d2 <->
   report_zAxis g1 < report_zAxis g2) /\
  (right_trigger d1 < right_trigger d2 <->
   report_rzAxis g1 < report_rzAxis g2).
Proof.
  intros Hwf1 Hwf2 g1 g2.
  destruct (updateGamepad_run d1)
    as (g1' & Hrun1 & _ & _ & Hx1 & Hy1 & Hrx1 & Hry1 & Hz1 & Hrz1 & _).
  destruct (updateGamepad_run d2)
    as (g2' & Hrun2 & _ & _ & Hx2 & Hy2 & Hrx2 & Hry2 & Hz2 & Hrz2 & _).
  unfold g1, g2. rewrite Hrun1, Hrun2. cbn [snd gamepad with_gamepad].
  rewrite Hx1, Hy1, Hrx1, Hry1, Hz1, Hrz1, Hx2, Hy2, Hrx2, Hry2, Hz2, Hrz2.
  pose proof (getRightStickX_fits d1 Hwf1).
  pose proof (getLeftTrigger_fits d1 Hwf1).
  pose proof (getRightStickX_fits d2 Hwf2).
  pose proof (getLeftTrigger_fits d2 Hwf2).
  rewrite !stick6_scaled, !stick5_scaled, !trigger_scaled
    by (assumption || apply Hwf1 || apply Hwf2).
  rewrite !Z.shiftl_mul_pow2 by lia.
  change (2 ^ 10) with 1024. change (2 ^ 11) with 2048. change (2 ^ 2) with 4.
  repeat split; lia.
Qed.

Lemma axes_monotone_witness :
  report_rxAxis (gamepad (updateGamepad (unpack report_idle) (boot [])).2) <
  report_rxAxis (gamepad (updateGamepad (unpack report_right_stick)
                                        (boot [])).2).
Proof.
  refine (proj1 (proj1 (proj2 (proj2
    (axes_monotone (unpack report_idle) (unpack report_right_stick)
                   (boot []) (boot []) _ _)))) _);
    [ constructor; vm_compute; (split; [discriminate | reflexivity])
    | constructor; vm_compute; (split; [discriminate | reflexivity])
    | vm_compute; reflexivity ].
Defined.

(** ** Updating the gamepad *)

(** X5: [updateGamepad] only rewrites the held report: it sends nothing
    and leaves bus, clock and trace alone; and what it leaves depends on
    its own data only, so that of two updates in a row the second wins
    and an update done twice is an update done once. *)
Theorem updateGamepad_overwrites (d1 d2 : ControllerData) (w : World) :
  (updateGamepad d1 ;; updateGamepad d2) w = updateGamepad d2 w /\
  (updateGamepad d2 ;; updateGamepad d2) w = updateGamepad d2 w /\
  (updateGamepad d2 w).2 = with_gamepad (gamepad (updateGamepad d2 w).2) w /\
  trace (updateGamepad d2 w).2 = trace w.
Proof.
  destruct (updateGamepad_run d1) as (g1 & Hrun1 & _).
  destruct (updateGamepad_run d2) as (g2 & Hrun2 & _).
  unfold bind. rewrite !Hrun1, !Hrun2. repeat split.
Qed.

(** ** Rounds of the main loop *)

Lemma transmissions_app t1 t2 :
  transmissions (t1 ++ t2) = transmissions t1 ++ transmissions t2.
Proof. apply omap_app. Qed.

Lemma transmissions_delays k ms : transmissions (replicate k (Delay ms)) = [].
Proof. induction k as [| k IH]; [reflexivity | exact IH]. Qed.


Lemma loop_blocked stack w :
  ack (hd absent (script w)) = 0 ->
  Z.of_nat (length (concat (reply (hd absent (script w))))) < DATA_LEN ->
  loop stack w =
  (inl Blocked,
   waited (length (tl (reply (hd absent (script w)))))
          (requested DATA_ADDRESS DATA_LEN w)).
Proof.
  intros Hack Hshort. rewrite loop_unfold. unfold bind at 1.
  rewrite i2cRead_blocked by assumption. reflexivity.
Qed.

(** X6: a round of the loop hangs in exactly one case: the write of the
    report address is acknowledged and fewer than six bytes ever arrive.
    Then nothing reaches the USB host in that round and the held report
    stays as it was.  Every other round comes back. *)
Theorem loop_blocks_iff_short_answer (stack : list Z) (w : World) :
  let x := hd absent (script w) in
  let short := Z.of_nat (length (concat (reply x))) < DATA_LEN in
  ((loop stack w).1 = inl Blocked <-> ack x = 0 /\ short) /\
  ((loop stack w).1 = inr tt <-> ~ (ack x = 0 /\ short)) /\
  ((loop stack w).1 = inl Blocked ->
   usb_output (trace (loop stack w).2) = usb_output (trace w) /\
   gamepad (loop stack w).2 = gamepad w).
Proof.
  intros x short. unfold short, x.
  destruct (Z.eq_dec (ack (hd absent (script w))) 0) as [Hack | Hack].
  - destruct (Z_lt_le_dec
                (Z.of_nat (length (concat (reply (hd absent (script w))))))
                DATA_LEN) as [Hshort | Hlen].
    + rewrite loop_blocked by assumption. cbn [fst snd].
      split; [split; [intros _; split; assumption | reflexivity] |].
      split.
      * split; [discriminate |].
        intros Hn. exfalso. apply Hn. split; assumption.
      * intros _. split.
        -- rewrite trace_waited, trace_requested, !usb_output_app,
             usb_output_delays. cbn [usb_output omap].
           rewrite !app_nil_r. reflexivity.
        -- rewrite waited_eq. reflexivity.
    + destruct (loop_ok_facts stack w Hack Hlen) as (Hdone & _).
      rewrite Hdone.
      split; [split; [discriminate | intros [_ Hs]; lia] |].
      split; [| discriminate].
      split; [intros _ [_ Hs]; lia | reflexivity].
  - rewrite loop_fail by exact Hack.
    destruct (pace_run (now w) (sent DATA_ADDRESS w)) as (Hdone & _).
    rewrite Hdone.
    split; [split; [discriminate | intros [Ha _]; contradiction] |].
    split; [| discriminate].
    split; [intros _ [Ha _]; contradiction | reflexivity].
Qed.

Lemma loop_blocks_iff_short_answer_witness :
  (loop [] (boot [answers [1; 2; 3]])).1 = inl Blocked.
Proof.
  apply (proj1 (loop_blocks_iff_short_answer [] (boot [answers [1; 2; 3]]))).
  split; [reflexivity | vm_compute; reflexivity].
Defined.

(** X7: a round that comes back has sent exactly one report, the one it
    leaves held, and has used up exactly one answer of the peripheral. *)
Theorem loop_sends_one_report (stack : list Z) (w : World) :
  (loop stack w).1 = inr tt ->
  usb_output (trace (loop stack w).2) =
    usb_output (trace w) ++ [gamepad (loop stack w).2] /\
  script (loop stack w).2 = tl (script w).
Proof.
  intros Hdone.
  destruct (Z.eq_dec (ack (hd absent (script w))) 0) as [Hack | Hack].
  - destruct (Z_lt_le_dec
                (Z.of_nat (length (concat (reply (hd absent (script w))))))
                DATA_LEN) as [Hshort | Hlen].
    + rewrite loop_blocked in Hdone by assumption. discriminate.
    + destruct (loop_ok_facts stack w Hack Hlen) as (_ & Hs & Hout & _).
      split; assumption.
  - rewrite loop_fail by exact Hack.
    destruct (pace_run (now w) (sent DATA_ADDRESS w)) as (_ & Hg & Hs & Ht).
    rewrite Hg, Hs, Ht. split; [| reflexivity].
    rewrite trace_sent, !usb_output_app.
    match goal with |- context [if ?c then _ else _] => destruct c end;
      cbn [usb_output omap app]; rewrite ?app_nil_r; reflexivity.
Qed.

Lemma loop_sends_one_report_witness :
  usb_output (trace (loop [] (boot [answers report_all_buttons])).2) =
  [gamepad (loop [] (boot [answers report_all_buttons])).2].
Proof.
  apply (loop_sends_one_report [] (boot [answers report_all_buttons])).
  reflexivity.
Defined.

(** X8: the report a good round leaves and sends is a function of the
    first six bytes of the answer alone: not of the report held before,
    of what the buffers still held, of how the bytes were spread over
    time, of further bytes, nor of the memory [data] started from. *)
Theorem report_depends_on_six_bytes
    (stack1 stack2 : list Z) (w1 w2 : World) :
  let x1 := hd absent (script w1) in
  let x2 := hd absent (script w2) in
  ack x1 = 0 -> ack x2 = 0 ->
  DATA_LEN <= Z.of_nat (length (concat (reply x1))) ->
  DATA_LEN <= Z.of_nat (length (concat (reply x2))) ->
  take 6 (concat (reply x1)) = take 6 (concat (reply x2)) ->
  gamepad (loop stack1 w1).2 = gamepad (loop stack2 w2).2.
Proof.
  intros x1 x2 Hack1 Hack2 Hlen1 Hlen2 Hsame.
  destruct (loop_ok_facts stack1 w1 Hack1 Hlen1) as (_ & _ & _ & v1 & Hv1 & ->).
  destruct (loop_ok_facts stack2 w2 Hack2 Hlen2) as (_ & _ & _ & v2 & Hv2 & ->).
  fold x1 in Hv1 |- *. fold x2 in Hv2 |- *.
  rewrite Hsame in Hv1 |- *. congruence.
Qed.

Lemma report_depends_on_six_bytes_witness :
  gamepad (loop [] (boot [answers report_all_buttons])).2 =
  gamepad (loop [9; 9]
             (with_gamepad (decoded (unpack report_idle) 0)
                (boot [ {| ack := 0;
                           reply := [[0x20; 0x20]; []; [0x10; 0x00; 0xc1];
                                     [0x03; 0x55]; [0x66]] |} ]))).2.
Proof.
  apply (report_depends_on_six_bytes [] [9; 9]);
    [ reflexivity | reflexivity | vm_compute; discriminate
    | vm_compute; discriminate | reflexivity ].
Defined.

(** ** Pacing *)












(** ** Many rounds *)

Lemma cycles_succ stack n w :
  cycles stack (S n) w =
  match loop stack w with
  | (inl f, w') => (inl f, w')
  | (inr _, w') => cycles stack n w'
  end.
Proof. reflexivity. Qed.

Lemma drop_tl {A} n (l : list A) : drop n (tl l) = drop (S n) l.
Proof. destruct l; [apply drop_nil | reflexivity]. Qed.

(** X10: [n] rounds that all come back have sent [n] reports, one per
    round, the last of them the report now held, and have used up [n]
    answers of the peripheral. *)
Theorem cycles_send_one_report_each (stack : list Z) (n : nat) (w : World) :
  (cycles stack n w).1 = inr tt ->
  length (usb_output (trace (cycles stack n w).2)) =
    (length (usb_output (trace w)) + n)%nat /\
  script (cycles stack n w).2 = drop n (script w) /\
  (n <> 0%nat ->
   last (usb_output (trace (cycles stack n w).2)) =
   Some (gamepad (cycles stack n w).2)).
Proof.
  revert w. induction n as [| n IH]; intros w Hdone.
  - cbn [cycles ret snd]. repeat split; [lia | contradiction].
  - rewrite cycles_succ in Hdone |- *.
    pose proof (loop_sends_one_report stack w) as Hloop.
    destruct (loop stack w) as [[f | []] w']; [discriminate |].
    cbn [fst snd] in Hloop. destruct (Hloop eq_refl) as [Hout Hscript].
    destruct (IH w' Hdone) as (Hlen & Hs & Hlast).
    split; [rewrite Hlen, Hout, length_app; cbn [length]; lia |].
    split; [rewrite Hs, Hscript; apply drop_tl |].
    intros _. destruct n as [| n]; [| apply Hlast; lia].
    cbn [cycles ret snd]. rewrite Hout. apply last_snoc.
Qed.

Lemma cycles_send_one_report_each_witness :
  length (usb_output (trace (cycles [] 3
    (boot [answers report_idle; refused; answers report_all_buttons])).2)) =
  3%nat.
Proof.
  apply (cycles_send_one_report_each [] 3
    (boot [answers report_idle; refused; answers report_all_buttons])).
  reflexivity.
Defined.

Lemma loop_transmits_once stack w :
  transmissions (trace (loop stack w).2) =
  transmissions (trace w) ++ [[DATA_ADDRESS]].
Proof.
  destruct (Z.eq_dec (ack (hd absent (script w))) 0) as [Hack | Hack].
  - destruct (Z_lt_le_dec
                (Z.of_nat (length (concat (reply (hd absent (script w))))))
                DATA_LEN) as [Hshort | Hlen].
    + rewrite loop_blocked by assumption. cbn [snd].
      rewrite trace_waited, trace_requested, !transmissions_app,
        transmissions_delays.
      cbn [transmissions omap]. rewrite app_nil_r. reflexivity.
    + destruct (loop_ok stack w Hack Hlen) as (k & v & _ & ->).
      match goal with
      | |- context [pace ?s ?w0] =>
          destruct (pace_run s w0) as (_ & _ & _ & ->)
      end.
      change (trace (with_gamepad ?g ?w0)) with (trace w0).
      rewrite trace_readBytes, trace_waited, trace_requested,
        !transmissions_app, transmissions_delays.
      match goal with |- context [if ?c then _ else _] => destruct c end;
        cbn [transmissions omap app]; rewrite ?app_nil_r; reflexivity.
  - rewrite loop_fail by exact Hack.
    destruct (pace_run (now w) (sent DATA_ADDRESS w)) as (_ & _ & _ & ->).
    rewrite trace_sent, !transmissions_app.
    match goal with |- context [if ?c then _ else _] => destruct c end;
      cbn [transmissions omap app]; rewrite ?app_nil_r; reflexivity.
Qed.

(** X11: whatever the peripheral answers, the rounds of the loop put
    nothing on the bus but the report address, once per round begun: the
    controller is never initialised or identified again, and a failed
    read is not retried within its round. *)
Theorem cycles_only_write_report_address (stack : list Z) (n : nat) (w : World) :
  exists m,
    (m <= n)%nat /\
    transmissions (trace (cycles stack n w).2) =
      transmissions (trace w) ++ replicate m [DATA_ADDRESS] /\
    ((cycles stack n w).1 = inr tt -> m = n).
Proof.
  revert w. induction n as [| n IH]; intros w.
  - exists 0%nat. cbn [cycles ret snd replicate]. rewrite app_nil_r.
    repeat split; lia.
  - rewrite cycles_succ.
    pose proof (loop_transmits_once stack w) as Hloop.
    destruct (loop stack w) as [[f | []] w']; cbn [snd] in Hloop.
    + exists 1%nat. cbn [fst snd replicate].
      split; [lia |]. split; [exact Hloop | discriminate].
    + destruct (IH w') as (m & Hm & Htx & Hall).
      exists (S m). split; [lia |].
      split; [| intros H; f_equal; apply Hall, H].
      rewrite Htx, Hloop, <- app_assoc. reflexivity.
Qed.

Lemma cycles_only_write_report_address_witness :
  transmissions (trace (cycles [] 3
    (boot [answers report_idle; refused; answers report_all_buttons])).2) =
  replicate 3 [DATA_ADDRESS].
Proof.
  destruct (cycles_only_write_report_address [] 3
    (boot [answers report_idle; refused; answers report_all_buttons]))
    as (m & _ & Htx & Hall).
  rewrite Htx, (Hall eq_refl). reflexivity.
Defined.

(** X12: while the peripheral refuses every transmission, as it does
    when it is not there at all, no round hangs and the held report never
    changes: each round sends the same report again. *)
Theorem refused_polls_repeat_the_report (stack : list Z) (n : nat) (w : World) :
  Forall (fun x => ack x <> 0) (script w) ->
  (cycles stack n w).1 = inr tt /\
  gamepad (cycles stack n w).2 = gamepad w /\
  usb_output (trace (cycles stack n w).2) =
    usb_output (trace w) ++ replicate n (gamepad w).
Proof.
  revert w. induction n as [| n IH]; intros w Hrefused.
  - cbn [cycles ret fst snd replicate]. rewrite app_nil_r. repeat split.
  - assert (ack (hd absent (script w)) <> 0) as Hack.
    { destruct Hrefused; [cbn; lia | assumption]. }
    rewrite cycles_succ, loop_fail by exact Hack.
    destruct (pace_run (now w) (sent DATA_ADDRESS w)) as (Hdone & Hg & Hs & Ht).
    destruct (pace (now w) (sent DATA_ADDRESS w)) as [[f | []] w'];
      [discriminate |].
    cbn [fst snd] in Hg, Hs, Ht.
    destruct (IH w') as (Hdone' & Hg' & Hout').
    { rewrite Hs. change (script (sent DATA_ADDRESS w)) with (tl (script w)).
      destruct Hrefused; [constructor | assumption]. }
    split; [exact Hdone' |].
    split; [rewrite Hg', Hg; reflexivity |].
    rewrite Hout', Hg, Ht, trace_sent, !usb_output_app.
    change (gamepad (sent DATA_ADDRESS w)) with (gamepad w).
    match goal with |- context [if ?c then _ else _] => destruct c end;
      cbn [usb_output omap app replicate]; rewrite ?app_nil_r, <- ?app_assoc;
      reflexivity.
Qed.

Lemma refused_polls_repeat_the_report_witness :
  usb_output (trace (cycles [] 4 (boot [refused; refused])).2) =
  replicate 4 zero_report.
Proof.
  apply (refused_polls_repeat_the_report [] 4 (boot [refused; refused])).
  repeat constructor; simpl; lia.
Defined.

(** ** Reading a register, start-up *)

Lemma transmissions_read address len k w :
  transmissions
    (trace (Wire.readBytes len (waited k (requested address len w))).2) =
  transmissions (trace w) ++ [[address]].
Proof.
  rewrite trace_readBytes, trace_waited, trace_requested.
  rewrite !transmissions_app, transmissions_delays.
  cbn [transmissions omap]. rewrite !app_nil_r. reflexivity.
Qed.

(** Where a read can end: at the refused pointer write, in the wait, or
    after the bytes were taken. *)
Lemma i2cRead_ends address len result w :
  (ack (hd absent (script w)) <> 0 /\
   i2cRead address len result w =
   (inr (ack (hd absent (script w)), result), sent address w)) \/
  (ack (hd absent (script w)) = 0 /\
   exists k,
     i2cRead address len result w =
     (inl Blocked, waited k (requested address len w))) \/
  (ack (hd absent (script w)) = 0 /\
   exists k,
     len <= Z.of_nat (length (rx (waited k (requested address len w)))) /\
     i2cRead address len result w =
     (inr (0, store (take (Z.to_nat len)
                       (rx (waited k (requested address len w)))) result),
      (Wire.readBytes len (waited k (requested address len w))).2)).
Proof.
  rewrite i2cRead_unfold.
  destruct (Z.eqb_spec (ack (hd absent (script w))) 0) as [Hack | Hack];
    cbn [negb]; [| left; split; [exact Hack | reflexivity]].
  right. rewrite read_tail. unfold wait_for.
  destruct (wait_available_run len
              (length (pending (requested address len w)))
              (requested address len w) eq_refl)
    as [(k & _ & -> & Hin & _) | [-> _]].
  - right. split; [exact Hack |]. exists k. split; [exact Hin | reflexivity].
  - left. split; [exact Hack |]. eexists. reflexivity.
Qed.

(** X13: what a read leaves alone.  However it ends, [i2cRead] puts
    exactly one transmission on the bus, the register address, uses up one
    answer of the peripheral, and touches neither the held report nor the
    USB side.  When it returns, the status is 0 or the status of the
    pointer write, the bytes of the buffer beyond [len] are as they were,
    and after a nonzero status so is the whole buffer. *)
Theorem i2cRead_frame (address len : Z) (result : list Z) (w : World) :
  let r := i2cRead address len result w in
  transmissions (trace r.2) = transmissions (trace w) ++ [[address]] /\
  script r.2 = tl (script w) /\
  gamepad r.2 = gamepad w /\
  usb_output (trace r.2) = usb_output (trace w) /\
  forall err buffer,
    r.1 = inr (err, buffer) ->
    (err = 0 \/ err = ack (hd absent (script w))) /\
    drop (Z.to_nat len) buffer = drop (Z.to_nat len) result /\
    (err <> 0 -> buffer = result).
Proof.
  intros r. unfold r.
  destruct (i2cRead_ends address len result w)
    as [[Hack ->] | [[Hack (k & ->)] | [Hack (k & Hin & ->)]]];
    cbn [fst snd].
  - rewrite trace_sent, transmissions_app, usb_output_app.
    cbn [transmissions usb_output omap]. rewrite app_nil_r.
    repeat split; try reflexivity.
    + right. congruence.
    + congruence.
    + congruence.
  - rewrite trace_waited, trace_requested, !transmissions_app,
      !usb_output_app, transmissions_delays, usb_output_delays.
    cbn [transmissions usb_output omap]. rewrite !app_nil_r.
    rewrite waited_eq. cbn [script gamepad].
    repeat split; try reflexivity; discriminate.
  - rewrite transmissions_read, script_read, gamepad_read, usb_output_read.
    repeat split; try reflexivity.
    + left. congruence.
    + injection H as <- <-. unfold store.
      rewrite length_take, Nat.min_l by lia.
      rewrite drop_app_length'; [reflexivity |].
      rewrite length_take. lia.
    + intros Herr. injection H as <- <-. contradiction.
Qed.

Lemma i2cRead_frame_witness :
  (i2cRead DATA_ADDRESS 2 [7; 8; 9] (boot [answers [1; 2; 3]])).1 =
  inr (0, [1; 2; 9]).
Proof.
  pose proof (i2cRead_frame DATA_ADDRESS 2 [7; 8; 9]
                (boot [answers [1; 2; 3]])) as H.
  cbv zeta in H. destruct H as (_ & _ & _ & _ & Hbuffer).
  destruct (Hbuffer 0 [1; 2; 9] eq_refl) as (_ & _ & _).
  reflexivity.
Defined.

Lemma setup_initialised stack w :
  setup stack w = getControllerId stack (initialised w).
Proof.
  assert (exists w', setup stack w = getControllerId stack w' /\
                     w' = initialised w) as (w' & -> & ->);
    [| reflexivity].
  eexists. split; [reflexivity |].
  unfold initialised.
  cbn [log with_gamepad script armed rx pending now gamepad trace
       hd tl take length Z.of_nat Z.to_nat Pos.to_nat Pos.iter_op
       Pos.of_succ_nat Pos.succ Nat.add INIT_DATA_1 INIT_DATA_2 app].
  f_equal. rewrite <- !app_assoc. reflexivity.
Qed.

Lemma tl_tl_tl {A} (l : list A) : tl (tl (tl l)) = drop 3 l.
Proof. destruct l as [| a [| b [| c l]]]; reflexivity. Qed.

(** X14: start-up.  Whatever the peripheral answers to the two
    initialisation writes, [setup] goes on: it always transmits the two
    initialisation sequences and then the identification address, in that
    order and nothing else, sends the empty report once and ends with the
    empty report held.  It hangs in exactly one case, when the
    identification address is acknowledged and fewer than six bytes ever
    arrive; otherwise it comes back. *)
Theorem setup_behaviour (stack : list Z) (w : World) :
  let id := hd absent (tl (tl (script w))) in
  let short := Z.of_nat (length (concat (reply id))) < ID_LEN in
  let r := setup stack w in
  transmissions (trace r.2) =
    transmissions (trace w) ++ [INIT_DATA_1; INIT_DATA_2; [ID_ADDRESS]] /\
  usb_output (trace r.2) = usb_output (trace w) ++ [zero_report] /\
  gamepad r.2 = zero_report /\
  script r.2 = drop 3 (script w) /\
  (r.1 = inl Blocked <-> ack id = 0 /\ short) /\
  (r.1 = inr tt <-> ~ (ack id = 0 /\ short)).
Proof.
  intros id short r. unfold r, short. rewrite setup_initialised.
  unfold getControllerId. cbv zeta. unfold bind.
  pose proof (i2cRead_frame ID_ADDRESS ID_LEN stack (initialised w))
    as (Htx & Hs & Hg & Hout & _).
  assert (transmissions (trace (initialised w)) =
          transmissions (trace w) ++ [INIT_DATA_1; INIT_DATA_2]) as Htx0.
  { cbn [initialised trace]. rewrite transmissions_app. reflexivity. }
  assert (usb_output (trace (initialised w)) =
          usb_output (trace w) ++ [zero_report]) as Hout0.
  { cbn [initialised trace]. rewrite usb_output_app. reflexivity. }
  rewrite Htx0, <- app_assoc in Htx. rewrite Hout0 in Hout.
  change (script (initialised w)) with (tl (tl (script w))) in Hs.
  rewrite tl_tl_tl in Hs.
  change (gamepad (initialised w)) with zero_report in Hg.
  assert ((i2cRead ID_ADDRESS ID_LEN stack (initialised w)).1 = inl Blocked <->
          ack id = 0 /\ Z.of_nat (length (concat (reply id))) < ID_LEN)
    as Hblocked.
  { change id with (hd absent (script (initialised w))).
    destruct (Z.eq_dec (ack (hd absent (script (initialised w)))) 0)
      as [Hack | Hack].
    - destruct (Z_lt_le_dec
        (Z.of_nat (length (concat (reply (hd absent
                                            (script (initialised w)))))))
        ID_LEN) as [Hshort | Hlen].
      + rewrite i2cRead_blocked by assumption. cbn [fst]. tauto.
      + destruct (i2cRead_ok ID_ADDRESS ID_LEN stack (initialised w) Hack)
          as (k & -> & _); [unfold ID_LEN in *; lia |].
        cbn [fst]. split; [discriminate | lia].
    - rewrite i2cRead_fail by exact Hack. cbn [fst].
      split; [discriminate | tauto]. }
  assert (forall f, (i2cRead ID_ADDRESS ID_LEN stack (initialised w)).1 = inl f ->
                    f = Blocked) as Hfault.
  { intros f.
    destruct (i2cRead_ends ID_ADDRESS ID_LEN stack (initialised w))
      as [[_ ->] | [[_ (k & ->)] | [_ (k & _ & ->)]]]; cbn [fst]; congruence. }
  destruct (i2cRead ID_ADDRESS ID_LEN stack (initialised w))
    as [[f | res] w']; cbn [fst snd ret] in *.
  - rewrite (Hfault f eq_refl) in *.
    assert (ack id = 0 /\ Z.of_nat (length (concat (reply id))) < ID_LEN)
      as Hcase by (apply Hblocked; reflexivity).
    split; [exact Htx |]. split; [exact Hout |].
    split; [exact Hg |]. split; [exact Hs |].
    split; [split; [intros _; exact Hcase | reflexivity] |].
    split; [discriminate | intros Hn; contradiction].
  - assert (~ (ack id = 0 /\ Z.of_nat (length (concat (reply id))) < ID_LEN))
      as Hcase by (intros Hc; apply Hblocked in Hc; discriminate).
    split; [exact Htx |]. split; [exact Hout |].
    split; [exact Hg |]. split; [exact Hs |].
    split; [split; [discriminate | intros Hc; contradiction] |].
    split; [intros _; exact Hcase | reflexivity].
Qed.

Lemma setup_behaviour_witness :
  (setup [] (boot [refused; refused; answers VALID_ID_2])).1 = inr tt.
Proof.
  pose proof (setup_behaviour []
                (boot [refused; refused; answers VALID_ID_2])) as H.
  cbv zeta in H. destruct H as (_ & _ & _ & _ & _ & Hback).
  apply Hback. intros [_ Hshort]. vm_compute in Hshort. discriminate.
Defined.
